(** * The advanced-caching starter kit: after-send policy and body transform

    A shallow embedding of [src/index.js].  The file registers two callbacks
    on a [CacheOverride]: [beforeSend], which injects an authorization header,
    and [afterSend], which assigns a freshness lifetime, a cache decision and
    an optional body transform from the headers of the origin response.

    The JavaScript built-ins the callbacks call ([Headers], [TextDecoder],
    [JSON.parse], property access, template-literal string conversion and
    [TextEncoder]) are modelled first, then the callbacks themselves, then the
    readthrough cache that invokes them. *)

From Stdlib Require Import NArith ZArith Ascii String List Lia Wf_nat.
From Stdlib.Strings Require Import Byte.
From stdpp Require Import gmap strings list.

Local Open Scope N_scope.

(** ** Completions: a call either returns or throws *)

Inductive js_error : Type :=
| SyntaxError   (* thrown by JSON.parse *)
| TypeError     (* property read on null, object without a primitive value *)
| OutOfFuel.    (* artefact of the fuelled parser; shown unreachable below *)

Inductive completion (A : Type) : Type :=
| Return (a : A)
| Throw (e : js_error).
Arguments Return {A} a.
Arguments Throw {A} e.

#[global] Instance completion_ret : MRet completion := @Return.
#[global] Instance completion_bind : MBind completion :=
  fun A B f m => match m with Return a => f a | Throw e => Throw e end.

Definition throws {A : Type} (m : completion A) : bool :=
  match m with Return _ => false | Throw _ => true end.

(** ** Strings

    A JavaScript string is a sequence of UTF-16 code units; header names and
    values are byte strings and are kept as [string]. *)

Abbreviation jsstring := (list N).

Definition lit (s : string) : jsstring :=
  map N_of_ascii (list_ascii_of_string s).

Definition ch (a : ascii) : N := N_of_ascii a.

Fixpoint jsstring_eqb (a b : jsstring) : bool :=
  match a, b with
  | [], [] => true
  | x :: a', y :: b' => (x =? y) && jsstring_eqb a' b'
  | _, _ => false
  end.

(** ** TextDecoder and TextEncoder (UTF-8, the default encoding) *)

Module Text.

Definition REPLACEMENT : N := 0xFFFD.

(** State of the UTF-8 decoder between bytes: idle, or inside a sequence
    with the code point so far, the number of continuation bytes still
    expected and the range allowed for the next one. *)
Inductive dstate : Type :=
| Idle
| Pending (cp : N) (more : nat) (lo hi : N).

Definition between (lo x hi : N) : bool := (lo <=? x) && (x <=? hi).

(** A byte read while idle. *)
Definition lead (b : N) : list N * dstate :=
  if b <=? 0x7F then ([b], Idle)
  else if between 0xC2 b 0xDF then
    ([], Pending (N.land b 0x1F) 1 0x80 0xBF)
  else if between 0xE0 b 0xEF then
    ([], Pending (N.land b 0xF) 2
           (if b =? 0xE0 then 0xA0 else 0x80)
           (if b =? 0xED then 0x9F else 0xBF))
  else if between 0xF0 b 0xF4 then
    ([], Pending (N.land b 0x7) 3
           (if b =? 0xF0 then 0x90 else 0x80)
           (if b =? 0xF4 then 0x8F else 0xBF))
  else ([REPLACEMENT], Idle).

(** Non-fatal decoding: every malformed sequence yields U+FFFD, and the
    byte that broke a sequence is read again as a lead byte. *)
Fixpoint decode_from (st : dstate) (bs : list N) : list N :=
  match bs with
  | [] => match st with Idle => [] | Pending _ _ _ _ => [REPLACEMENT] end
  | b :: rest =>
      match st with
      | Idle =>
          let '(out, st') := lead b in out ++ decode_from st' rest
      | Pending cp more lo hi =>
          if between lo b hi then
            let cp' := N.lor (N.shiftl cp 6) (N.land b 0x3F) in
            match more with
            | O | 1%nat => cp' :: decode_from Idle rest
            | S more' => decode_from (Pending cp' more' 0x80 0xBF) rest
            end
          else
            let '(out, st') := lead b in
            REPLACEMENT :: out ++ decode_from st' rest
      end
  end.

(** [ignoreBOM] is false by default: a leading U+FEFF is dropped. *)
Definition strip_bom (cps : list N) : list N :=
  match cps with
  | c :: rest => if c =? 0xFEFF then rest else cps
  | [] => []
  end.

Definition utf16_of_cp (cp : N) : list N :=
  if cp <? 0x10000 then [cp]
  else let v := cp - 0x10000 in
       [0xD800 + N.shiftr v 10; 0xDC00 + N.land v 0x3FF].

(** [new TextDecoder().decode(bytes)] *)
Definition decode (bytes : list byte) : jsstring :=
  flat_map utf16_of_cp (strip_bom (decode_from Idle (map Byte.to_N bytes))).

Definition is_high (c : N) : bool := between 0xD800 c 0xDBFF.
Definition is_low (c : N) : bool := between 0xDC00 c 0xDFFF.

(** Code units to scalar values: a surrogate pair is combined, a lone
    surrogate becomes U+FFFD. *)
Fixpoint scalars (s : jsstring) : list N :=
  match s with
  | [] => []
  | c :: rest =>
      if is_high c then
        match rest with
        | d :: rest' =>
            if is_low d
            then (0x10000 + N.shiftl (c - 0xD800) 10 + (d - 0xDC00))
                   :: scalars rest'
            else REPLACEMENT :: scalars rest
        | [] => [REPLACEMENT]
        end
      else if is_low c then REPLACEMENT :: scalars rest
      else c :: scalars rest
  end.

Definition cont (x : N) : N := N.lor 0x80 (N.land x 0x3F).

Definition utf8_of_cp (cp : N) : list N :=
  if cp <? 0x80 then [cp]
  else if cp <? 0x800 then [N.lor 0xC0 (N.shiftr cp 6); cont cp]
  else if cp <? 0x10000 then
    [N.lor 0xE0 (N.shiftr cp 12); cont (N.shiftr cp 6); cont cp]
  else
    [N.lor 0xF0 (N.shiftr cp 18); cont (N.shiftr cp 12);
     cont (N.shiftr cp 6); cont cp].

Definition byte_of_N (n : N) : byte :=
  match Byte.of_N (n mod 256) with Some b => b | None => x00 end.

(** [new TextEncoder().encode(str)] *)
Definition encode (s : jsstring) : list byte :=
  map byte_of_N (flat_map utf8_of_cp (scalars s)).

(** The bytes of an ASCII literal, for stating examples. *)
Definition bytes_of (s : string) : list byte :=
  map byte_of_ascii (list_ascii_of_string s).

End Text.

(** ** JSON.parse *)

Module Json.

(** The values [JSON.parse] can return.  A number keeps its source text:
    the only thing the program does with one is convert it to a string. *)
#[warnings="-register-all"]
Inductive JSValue : Type :=
| JNull
| JBool (b : bool)
| JNumber (lexeme : jsstring)
| JString (s : jsstring)
| JArray (elems : list JSValue)
| JObject (props : list (jsstring * JSValue)).

Definition is_ws (c : N) : bool :=
  (c =? 0x09) || (c =? 0x0A) || (c =? 0x0D) || (c =? 0x20).

Fixpoint skip_ws (s : jsstring) : jsstring :=
  match s with
  | c :: rest => if is_ws c then skip_ws rest else s
  | [] => []
  end.

Definition DQUOTE : N := 0x22.
Definition BACKSLASH : N := 0x5C.

Definition is_digit (c : N) : bool := Text.between (ch "0") c (ch "9").

Definition hexval (c : N) : option N :=
  if is_digit c then Some (c - ch "0")
  else if Text.between (ch "a") c (ch "f") then Some (c - ch "a" + 10)
  else if Text.between (ch "A") c (ch "F") then Some (c - ch "A" + 10)
  else None.

Definition hex4 (a b c d : N) : option N :=
  x ← hexval a; y ← hexval b; z ← hexval c; w ← hexval d;
  Some (((x * 16 + y) * 16 + z) * 16 + w).

(** The character after a backslash, for the single-character escapes. *)
Definition simple_escape (e : N) : option N :=
  if e =? DQUOTE then Some (DQUOTE)
  else if e =? BACKSLASH then Some (BACKSLASH)
  else if e =? ch "/" then Some (ch "/")
  else if e =? ch "b" then Some 0x08
  else if e =? ch "f" then Some 0x0C
  else if e =? ch "n" then Some 0x0A
  else if e =? ch "r" then Some 0x0D
  else if e =? ch "t" then Some 0x09
  else None.

(** The characters of a string, after its opening quote, up to and
    including the closing quote. *)
Fixpoint parse_chars (s : jsstring) : completion (jsstring * jsstring) :=
  match s with
  | [] => Throw SyntaxError
  | c :: r =>
      if c =? DQUOTE then Return ([], r)
      else if c =? BACKSLASH then
        match r with
        | [] => Throw SyntaxError
        | e :: r1 =>
            match simple_escape e with
            | Some x =>
                '(str, rest) ← parse_chars r1; Return (x :: str, rest)
            | None =>
                if e =? ch "u" then
                  match r1 with
                  | h1 :: h2 :: h3 :: h4 :: r2 =>
                      match hex4 h1 h2 h3 h4 with
                      | Some u =>
                          '(str, rest) ← parse_chars r2;
                          Return (u :: str, rest)
                      | None => Throw SyntaxError
                      end
                  | _ => Throw SyntaxError
                  end
                else Throw SyntaxError
            end
        end
      else if c <? 0x20 then Throw SyntaxError
      else '(str, rest) ← parse_chars r; Return (c :: str, rest)
  end.

Fixpoint span_digits (s : jsstring) : jsstring * jsstring :=
  match s with
  | c :: r =>
      if is_digit c
      then let '(ds, rest) := span_digits r in (c :: ds, rest)
      else ([], s)
  | [] => ([], [])
  end.

(** One or more digits. *)
Definition digits1 (s : jsstring) : completion (jsstring * jsstring) :=
  match span_digits s with
  | ([], _) => Throw SyntaxError
  | (ds, rest) => Return (ds, rest)
  end.

Definition parse_int (s : jsstring) : completion (jsstring * jsstring) :=
  match s with
  | c :: r =>
      if c =? ch "0" then Return ([c], r)
      else if is_digit c
      then let '(ds, rest) := span_digits r in Return (c :: ds, rest)
      else Throw SyntaxError
  | [] => Throw SyntaxError
  end.

Definition parse_frac (s : jsstring) : completion (jsstring * jsstring) :=
  match s with
  | c :: r =>
      if c =? ch "."
      then '(ds, rest) ← digits1 r; Return (c :: ds, rest)
      else Return ([], s)
  | [] => Return ([], [])
  end.

Definition parse_exp (s : jsstring) : completion (jsstring * jsstring) :=
  match s with
  | c :: r =>
      if (c =? ch "e") || (c =? ch "E") then
        match r with
        | sg :: r' =>
            if (sg =? ch "+") || (sg =? ch "-")
            then '(ds, rest) ← digits1 r'; Return (c :: sg :: ds, rest)
            else '(ds, rest) ← digits1 r; Return (c :: ds, rest)
        | [] => Throw SyntaxError
        end
      else Return ([], s)
  | [] => Return ([], [])
  end.

(** number = [ minus ] int [ frac ] [ exp ] *)
Definition parse_number (s : jsstring) : completion (jsstring * jsstring) :=
  let '(sign, s0) :=
    match s with
    | c :: r => if c =? ch "-" then ([c], r) else ([], s)
    | [] => ([], [])
    end in
  '(i, s1) ← parse_int s0;
  '(f, s2) ← parse_frac s1;
  '(e, s3) ← parse_exp s2;
  Return (sign ++ i ++ f ++ e, s3).

Fixpoint strip_prefix (p s : jsstring) : option jsstring :=
  match p, s with
  | [], _ => Some s
  | x :: p', y :: s' => if x =? y then strip_prefix p' s' else None
  | _ :: _, [] => None
  end.

Definition keyword (word : string) (v : JSValue) (s : jsstring)
  : completion (JSValue * jsstring) :=
  match strip_prefix (lit word) s with
  | Some rest => Return (v, rest)
  | None => Throw SyntaxError
  end.

(** Values, array elements and object members.  [fuel] bounds the number
    of nested calls; [parse] below supplies enough of it. *)
Fixpoint parse_value (fuel : nat) (s : jsstring)
  : completion (JSValue * jsstring) :=
  match fuel with
  | O => Throw OutOfFuel
  | S fuel' =>
      match skip_ws s with
      | [] => Throw SyntaxError
      | c :: r =>
          if c =? ch "{" then
            match skip_ws r with
            | [] => Throw SyntaxError
            | c' :: r' =>
                if c' =? ch "}" then Return (JObject [], r')
                else '(ms, rest) ← parse_members fuel' (c' :: r');
                     Return (JObject ms, rest)
            end
          else if c =? ch "[" then
            match skip_ws r with
            | [] => Throw SyntaxError
            | c' :: r' =>
                if c' =? ch "]" then Return (JArray [], r')
                else '(vs, rest) ← parse_elements fuel' (c' :: r');
                     Return (JArray vs, rest)
            end
          else if c =? DQUOTE then
            '(str, rest) ← parse_chars r; Return (JString str, rest)
          else if c =? ch "t" then keyword "rue" (JBool true) r
          else if c =? ch "f" then keyword "alse" (JBool false) r
          else if c =? ch "n" then keyword "ull" JNull r
          else '(lex, rest) ← parse_number (c :: r);
               Return (JNumber lex, rest)
      end
  end
with parse_elements (fuel : nat) (s : jsstring)
  : completion (list JSValue * jsstring) :=
  match fuel with
  | O => Throw OutOfFuel
  | S fuel' =>
      '(v, rest) ← parse_value fuel' s;
      match skip_ws rest with
      | [] => Throw SyntaxError
      | c :: r =>
          if c =? ch "," then
            '(vs, rest') ← parse_elements fuel' r; Return (v :: vs, rest')
          else if c =? ch "]" then Return ([v], r)
          else Throw SyntaxError
      end
  end
with parse_members (fuel : nat) (s : jsstring)
  : completion (list (jsstring * JSValue) * jsstring) :=
  match fuel with
  | O => Throw OutOfFuel
  | S fuel' =>
      match skip_ws s with
      | [] => Throw SyntaxError
      | q :: r =>
          if q =? DQUOTE then
            '(key, rest) ← parse_chars r;
            match skip_ws rest with
            | [] => Throw SyntaxError
            | c :: r1 =>
                if c =? ch ":" then
                  '(v, rest1) ← parse_value fuel' r1;
                  match skip_ws rest1 with
                  | [] => Throw SyntaxError
                  | c' :: r2 =>
                      if c' =? ch "," then
                        '(ms, rest2) ← parse_members fuel' r2;
                        Return ((key, v) :: ms, rest2)
                      else if c' =? ch "}" then Return ([(key, v)], r2)
                      else Throw SyntaxError
                  end
                else Throw SyntaxError
            end
          else Throw SyntaxError
      end
  end.

(** Induction over values that reaches the elements of arrays and the
    members of objects. *)
Fixpoint JSValue_nested_ind (P : JSValue -> Prop)
    (Hnull : P JNull)
    (Hbool : forall b, P (JBool b))
    (Hnumber : forall lexeme, P (JNumber lexeme))
    (Hstring : forall s, P (JString s))
    (Harray : forall elems, Forall P elems -> P (JArray elems))
    (Hobject : forall props,
        Forall (fun kv => P (snd kv)) props -> P (JObject props))
    (v : JSValue) {struct v} : P v :=
  let rec := JSValue_nested_ind P Hnull Hbool Hnumber Hstring Harray Hobject in
  match v with
  | JNull => Hnull
  | JBool b => Hbool b
  | JNumber lexeme => Hnumber lexeme
  | JString s => Hstring s
  | JArray elems =>
      Harray elems
        ((fix all (l : list JSValue) : Forall P l :=
            match l with
            | [] => @List.Forall_nil _ P
            | x :: rest => @List.Forall_cons _ P x rest (rec x) (all rest)
            end) elems)
  | JObject props =>
      Hobject props
        ((fix all (l : list (jsstring * JSValue))
            : Forall (fun kv => P (snd kv)) l :=
            match l with
            | [] => @List.Forall_nil _ _
            | kv :: rest =>
                @List.Forall_cons _ _ kv rest (rec (snd kv)) (all rest)
            end) props)
  end.

(** [JSON.parse(str)]: one value, surrounded by optional white space. *)
Definition parse (s : jsstring) : completion JSValue :=
  '(v, rest) ← parse_value (2 * length s + 2) s;
  match skip_ws rest with
  | [] => Return v
  | _ :: _ => Throw SyntaxError
  end.

End Json.


(** ** Property reads and string conversion *)

Module Value.
Import Json.

(** The value of the last member named [key]: a repeated member name in a
    JSON text overwrites the earlier one. *)
Fixpoint own_property (key : jsstring) (props : list (jsstring * JSValue))
  : option JSValue :=
  match props with
  | [] => None
  | (k, v) :: rest =>
      match own_property key rest with
      | Some v' => Some v'
      | None => if jsstring_eqb key k then Some v else None
      end
  end.

(** [json[key]] for a key that is neither an array index nor the name of a
    built-in property, as ['firstName'] and ['lastName'] are.  [None] is
    [undefined].  Reading a property of [null] throws; numbers, booleans,
    strings and arrays have no such property. *)
Definition get (json : JSValue) (key : jsstring)
  : completion (option JSValue) :=
  match json with
  | JNull => Throw TypeError
  | JObject props => Return (own_property key props)
  | JBool _ | JNumber _ | JString _ | JArray _ => Return None
  end.

Definition join (sep : jsstring) (parts : list jsstring) : jsstring :=
  match parts with
  | [] => []
  | p :: ps => p ++ flat_map (fun q => sep ++ q) ps
  end.

Section ToString.

(** [Number::toString] of the double a JSON number text denotes.  Binary
    floating point is outside this development; the conversion is a
    parameter. *)
Variable NumberToString : jsstring -> jsstring.

(** String conversion as a template literal performs it.  An array is the
    comma-separated conversion of its elements, with [null] contributing the
    empty string.  An object is ["[object Object]"], unless it has a member
    named [toString]: that member is not callable, [valueOf] yields no
    primitive, and the conversion throws. *)
Fixpoint to_string (v : JSValue) : completion jsstring :=
  match v with
  | JNull => Return (lit "null")
  | JBool true => Return (lit "true")
  | JBool false => Return (lit "false")
  | JNumber lexeme => Return (NumberToString lexeme)
  | JString s => Return s
  | JArray elems =>
      let fix each (l : list JSValue) : completion (list jsstring) :=
        match l with
        | [] => Return []
        | x :: rest =>
            s ← match x with JNull => Return [] | _ => to_string x end;
            ss ← each rest;
            Return (s :: ss)
        end in
      parts ← each elems; Return (join (lit ",") parts)
  | JObject props =>
      match own_property (lit "toString") props with
      | Some _ => Throw TypeError
      | None => Return (lit "[object Object]")
      end
  end.

(** [`${x}`] for a value read from a property. *)
Definition template_string (x : option JSValue) : completion jsstring :=
  match x with
  | None => Return (lit "undefined")
  | Some v => to_string v
  end.

End ToString.
End Value.

(** ** Headers *)

Module Headers.

Definition lower (a : ascii) : ascii :=
  let n := N_of_ascii a in
  if Text.between 65 n 90 then ascii_of_N (n + 32) else a.

Fixpoint lower_string (s : string) : string :=
  match s with
  | EmptyString => EmptyString
  | String a rest => String (lower a) (lower_string rest)
  end.

(** Header names are compared without regard to case. *)
Definition name_eqb (a b : string) : bool :=
  String.eqb (lower_string a) (lower_string b).

(** A header list, in order, possibly with repeated names. *)
Definition t : Type := list (string * string).

Definition values (name : string) (h : t) : list string :=
  map snd (List.filter (fun p => name_eqb name (fst p)) h).

(** [headers.get(name)]: the values of all headers of that name joined by a
    comma and a space; [None] is [null]. *)
Definition get (name : string) (h : t) : option string :=
  match values name h with
  | [] => None
  | vs => Some (String.concat ", " vs)
  end.

(** [headers.has(name)] *)
Definition has (name : string) (h : t) : bool :=
  existsb (fun p => name_eqb name (fst p)) h.

Definition remove (name : string) (h : t) : t :=
  List.filter (fun p => negb (name_eqb name (fst p))) h.

(** [headers.set(name, value)]: the first header of that name takes the
    value and the others are removed; without one, the header is appended. *)
Fixpoint set (name value : string) (h : t) : t :=
  match h with
  | [] => [(name, value)]
  | (n, v) :: rest =>
      if name_eqb name n
      then (n, value) :: remove name rest
      else (n, v) :: set name value rest
  end.

(** [x === 'literal'] for the result of [get]. *)
Definition strict_eq (x : option string) (literal : string) : bool :=
  match x with
  | Some s => String.eqb s literal
  | None => false
  end.

End Headers.

(** ** Callbacks

    A callback receives one mutable object (the outbound request or the
    candidate response) and may write to the console; it is a state
    transformer over the object and the console lines written so far. *)

Definition Callback (O A : Type) : Type :=
  O * list string -> A * (O * list string).

#[global] Instance callback_ret {O} : MRet (Callback O) :=
  fun A a s => (a, s).
#[global] Instance callback_bind {O} : MBind (Callback O) :=
  fun A B f m s => let '(a, s') := m s in f a s'.

Definition console_log {O} (line : string) : Callback O unit :=
  fun '(o, out) => (tt, (o, out ++ [line])).

(** Both objects carry a [headers] property. *)
Class HasHeaders (O : Type) : Type := {
  headers_of : O -> Headers.t;
  with_headers : Headers.t -> O -> O
}.

Definition headers_get {O} `{HasHeaders O} (name : string)
  : Callback O (option string) :=
  fun '(o, out) => (Headers.get name (headers_of o), (o, out)).

Definition headers_has {O} `{HasHeaders O} (name : string)
  : Callback O bool :=
  fun '(o, out) => (Headers.has name (headers_of o), (o, out)).

Definition headers_set {O} `{HasHeaders O} (name value : string)
  : Callback O unit :=
  fun '(o, out) =>
    (tt, (with_headers (Headers.set name value (headers_of o)) o, out)).

(** The request handed to [beforeSend]. *)
Record Request : Type := {
  method : string;
  url : string;
  request_headers : Headers.t
}.

#[global] Instance request_headers_inst : HasHeaders Request := {
  headers_of := request_headers;
  with_headers h r :=
    {| method := method r; url := url r; request_headers := h |}
}.

(** The [CandidateResponse] handed to [afterSend]: headers and cache policy,
    and no access to the body.  [ttl] is in seconds. *)
Record CandidateResponse : Type := {
  headers : Headers.t;
  ttl : Z
}.

#[global] Instance candidate_headers_inst : HasHeaders CandidateResponse := {
  headers_of := headers;
  with_headers h r := {| headers := h; ttl := ttl r |}
}.

Definition set_ttl (seconds : Z) : Callback CandidateResponse unit :=
  fun '(r, out) => (tt, ({| headers := headers r; ttl := seconds |}, out)).

(** The values the variable [cache] of [afterSend] takes. *)
Inductive CacheOption : Type :=
| CacheUndefined      (* undefined *)
| CacheFalse          (* false *)
| CacheUncacheable.   (* 'uncacheable' *)

(** The object [afterSend] returns; [None] is [undefined]. *)
Record AfterSendResult : Type := {
  cache : CacheOption;
  bodyTransformFn : option (list byte -> completion (list byte))
}.

Record CacheOverride : Type := {
  co_beforeSend : Callback Request unit;
  co_afterSend : Callback CandidateResponse AfterSendResult
}.

(** ** The readthrough cache

    index.js hands [cacheOverride] to [fetch]; the cache that then calls the
    callbacks, runs the body transform and persists the result belongs to
    the platform and has no source in this repository.  It is modelled from
    the specification (sections 3, 4.3, 4.4, 6 and 7), and from the comment
    of index.js, lines 99-105, on 304 responses. *)

(** Modelled from the spec: the CachedEntry of section 3, whose source is
    missing; the key is the key of the store. *)
Record CachedEntry : Type := {
  entry_headers : Headers.t;
  entry_lifetime : Z;
  entry_body : list byte;
  entry_collapsible : bool
}.

(** Modelled from the spec: what the Cache Store, whose source is missing,
    holds under a key: an entry, or the negative marker that a hit-for-pass
    decision leaves. *)
Inductive Slot : Type :=
| Entry (e : CachedEntry)
| PassMarker.

(** Modelled from the spec: the tri-state CacheDecision of section 3, whose
    source is missing. *)
Inductive CacheDecision : Type :=
| Store
| Skip
| HitForPass.

(** Modelled from the spec: how the missing engine reads the [cache] field
    (section 4.2): a decision that is not set means default caching,
    [false] means skip and ['uncacheable'] means hit-for-pass. *)
Definition decision_of (c : CacheOption) : CacheDecision :=
  match c with
  | CacheUndefined => Store
  | CacheFalse => Skip
  | CacheUncacheable => HitForPass
  end.

(** Modelled from the spec: [lookup] of the missing Cache Store interface
    (section 6). *)
Definition lookup_entry (key : string) (st : gmap string Slot)
  : option CachedEntry :=
  match st !! key with
  | Some (Entry e) => Some e
  | Some PassMarker | None => None
  end.

(** Modelled from the spec: [store] of the missing Cache Store interface
    (section 6). *)
Definition store_entry (key : string) (h : Headers.t) (lifetime : Z)
    (body : list byte) (collapsible : bool) (st : gmap string Slot)
  : gmap string Slot :=
  <[key := Entry {| entry_headers := h; entry_lifetime := lifetime;
                    entry_body := body;
                    entry_collapsible := collapsible |}]> st.

(** Modelled from the spec: [updateMetadata] of the missing Cache Store
    interface (sections 3 and 6): headers and lifetime are replaced in
    place, the body is untouched. *)
Definition updateMetadata (key : string) (h : Headers.t) (lifetime : Z)
    (st : gmap string Slot) : gmap string Slot :=
  match lookup_entry key st with
  | Some e =>
      <[key := Entry {| entry_headers := h; entry_lifetime := lifetime;
                        entry_body := entry_body e;
                        entry_collapsible := entry_collapsible e |}]> st
  | None => st
  end.

(** Modelled from the spec: [markHitForPass] of the missing Cache Store
    interface (section 6). *)
Definition markHitForPass (key : string) (st : gmap string Slot)
  : gmap string Slot :=
  <[key := PassMarker]> st.

(** What the origin sent, with the lifetime the cache derived from it before
    any callback ran. *)
Record OriginResponse : Type := {
  status : Z;
  origin_headers : Headers.t;
  origin_lifetime : Z;
  origin_body : list byte
}.

Definition not_modified (o : OriginResponse) : bool := (status o =? 304)%Z.

(** What the cache did with a response. *)
Inductive Action : Type :=
| Stored
| Skipped
| MarkedHitForPass
| MetadataUpdated.

(** What can be observed of one pass through the cache, in order. *)
Inductive Event : Type :=
| HookLogged (line : string)
| TransformInvoked (input : list byte)
| TransformFailureLogged (e : js_error).

(** The status and body the caller receives. *)
Record ClientResponse : Type := {
  client_status : Z;
  client_body : list byte
}.

Record Outcome : Type := {
  store_after : gmap string Slot;
  action : Action;
  client : ClientResponse;
  events : list Event
}.

(** Modelled from the spec: the missing Body Transform Executor and the
    persistence of a fresh response (sections 4.4 and 7).  The transform
    runs once, only under a store decision; when it throws, the decision
    falls back to skip, the failure is logged and the caller receives the
    origin's response.  The spec leaves open what the caller receives when
    the transform succeeds; the persisted bytes are returned here. *)
Definition persist_fresh (key : string) (r : AfterSendResult)
    (cand : CandidateResponse) (o : OriginResponse) (st : gmap string Slot)
  : gmap string Slot * Action * ClientResponse * list Event :=
  let original :=
    {| client_status := status o; client_body := origin_body o |} in
  match decision_of (cache r) with
  | Skip => (st, Skipped, original, [])
  | HitForPass => (markHitForPass key st, MarkedHitForPass, original, [])
  | Store =>
      match bodyTransformFn r with
      | None =>
          (store_entry key (headers cand) (ttl cand) (origin_body o) true st,
           Stored, original, [])
      | Some transform =>
          match transform (origin_body o) with
          | Return bytes =>
              (store_entry key (headers cand) (ttl cand) bytes true st,
               Stored,
               {| client_status := status o; client_body := bytes |},
               [TransformInvoked (origin_body o)])
          | Throw e =>
              (st, Skipped, original,
               [TransformInvoked (origin_body o); TransformFailureLogged e])
          end
      end
  end.

(** Modelled from the spec: the missing Revalidation Coordinator (section
    4.3).  The transform, even if declared, is not invoked; only the headers
    and the lifetime of the existing entry are replaced. *)
Definition revalidate (key : string) (cand : CandidateResponse)
    (o : OriginResponse) (st : gmap string Slot)
  : gmap string Slot * Action * ClientResponse * list Event :=
  let st' := updateMetadata key (headers cand) (ttl cand) st in
  let body :=
    match lookup_entry key st' with
    | Some e => entry_body e
    | None => origin_body o
    end in
  (st', MetadataUpdated,
   {| client_status := status o; client_body := body |}, []).

(** The candidate response the post-send hook receives for an origin
    response. *)
Definition candidate (o : OriginResponse) : CandidateResponse :=
  {| headers := origin_headers o; ttl := origin_lifetime o |}.

(** Modelled from the spec: the missing control flow of section 2 after the
    origin has answered: the post-send hook runs on the candidate response,
    then a not-modified response goes to the Revalidation Coordinator and a
    fresh one to the executor and the store. *)
Definition readthrough (co : CacheOverride) (key : string)
    (o : OriginResponse) (st : gmap string Slot) : Outcome :=
  let '(r, (cand, out)) := co_afterSend co (candidate o, []) in
  let '(st', act, resp, evs) :=
    if not_modified o
    then revalidate key cand o st
    else persist_fresh key r cand o st in
  {| store_after := st'; action := act; client := resp;
     events := map HookLogged out ++ evs |}.

(** Modelled from the spec: the missing Request Pipeline (section 4.1): the
    request that reaches the origin is the one the pre-send hook has
    finished mutating. *)
Definition dispatch (co : CacheOverride) (req : Request) : Request :=
  fst (snd (co_beforeSend co (req, []))).

Section Program.

Variable NumberToString : jsstring -> jsstring.

(** index.js, lines 29-39 *)
Definition beforeSend : Callback Request unit :=
  console_log "in before-send callback function";;
  let authHeader := "Foo"%string in
  headers_set "Authorization" authHeader.

(** index.js, lines 120-130: the arrow function assigned to
    [bodyTransformFn]. *)
Definition bodyTransform (bytes : list byte) : completion (list byte) :=
  let str := Text.decode bytes in
  json ← Json.parse str;
  firstName ← Value.get json (lit "firstName");
  lastName ← Value.get json (lit "lastName");
  first ← Value.template_string NumberToString firstName;
  last ← Value.template_string NumberToString lastName;
  let html := lit "<div>" ++ first ++ lit " " ++ last ++ lit "</div>" in
  Return (Text.encode html).

(** index.js, lines 67-80: the switch on the Content-Type; its value is the
    variable [cache] after it. *)
Definition content_type_dispatch (contentType : option string)
  : Callback CandidateResponse CacheOption :=
  if Headers.strict_eq contentType "image" then
    set_ttl 67;; mret CacheUndefined
  else if Headers.strict_eq contentType "text/html" then
    set_ttl 321;; mret CacheUndefined
  else if Headers.strict_eq contentType "application/xml" then
    mret CacheFalse
  else
    set_ttl 2;; mret CacheUndefined.

(** The response as the switch leaves it. *)
Definition dispatched (resp : CandidateResponse) : CandidateResponse :=
  fst (snd (content_type_dispatch
              (Headers.get "Content-Type" (headers resp)) (resp, []))).

(** index.js, lines 53-138 *)
Definition afterSend : Callback CandidateResponse AfterSendResult :=
  console_log "in after-send callback function";;
  contentType ← headers_get "Content-Type";
  cache0 ← content_type_dispatch contentType;
  private ← headers_has "my-private-header";
  let cache1 := if private : bool then CacheUncacheable else cache0 in
  contentType' ← headers_get "Content-Type";
  transform ←
    (if Headers.strict_eq contentType' "application/json" then
       headers_set "Content-Type" "text/html";;
       mret (Some bodyTransform)
     else mret None);
  mret {| cache := cache1; bodyTransformFn := transform |}.

(** index.js, lines 19-139 *)
Definition cacheOverride : CacheOverride :=
  {| co_beforeSend := beforeSend; co_afterSend := afterSend |}.

(** Running [afterSend] on a response with an empty console. *)
Definition run_afterSend (resp : CandidateResponse)
  : AfterSendResult * CandidateResponse * list string :=
  let '(result, (resp', out)) := afterSend (resp, []) in (result, resp', out).

Definition afterSend_result (resp : CandidateResponse) : AfterSendResult :=
  fst (fst (run_afterSend resp)).

Definition afterSend_resp (resp : CandidateResponse) : CandidateResponse :=
  snd (fst (run_afterSend resp)).

End Program.

(** ** Example data *)

(** An instance of the number conversion for the examples, none of which
    converts a number: the source text of the number. *)
Definition number_text (lexeme : jsstring) : jsstring := lexeme.

Definition dq : string := String "034"%char EmptyString.

(** The text [{"firstName":"Ann","lastName":"Lee"}]. *)
Definition ann_lee_json : string :=
  ("{" ++ dq ++ "firstName" ++ dq ++ ":" ++ dq ++ "Ann" ++ dq ++ ","
       ++ dq ++ "lastName" ++ dq ++ ":" ++ dq ++ "Lee" ++ dq ++ "}")%string.

Definition response_of (contentType : string) (lifetime : Z)
  : CandidateResponse :=
  {| headers := [("Content-Type"%string, contentType)]; ttl := lifetime |}.

Definition private_response_of (contentType : string) (lifetime : Z)
  : CandidateResponse :=
  {| headers := [("Content-Type"%string, contentType);
                 ("My-Private-Header"%string, "1"%string)];
     ttl := lifetime |}.

Definition origin_of (code : Z) (contentType : string) (lifetime : Z)
    (body : string) : OriginResponse :=
  {| status := code;
     origin_headers := [("Content-Type"%string, contentType)];
     origin_lifetime := lifetime;
     origin_body := Text.bytes_of body |}.

(** An entry cached earlier under the key ["GET /page"]. *)
Definition cached_page : CachedEntry :=
  {| entry_headers := [("Content-Type"%string, "text/html"%string)];
     entry_lifetime := 10;
     entry_body := Text.bytes_of "<p>cached</p>";
     entry_collapsible := true |}.

Definition one_page_store : gmap string Slot :=
  {[ "GET /page"%string := Entry cached_page ]}.

(** ** Vocabulary for the general statements *)

(** The request as [beforeSend] leaves it. *)
Definition sent_request (req : Request) : Request :=
  fst (snd (beforeSend (req, []))).


(** Whether a header value contains a comma, as every value that [get]
    combines from repeated headers does. *)
Fixpoint has_comma (s : string) : bool :=
  match s with
  | EmptyString => false
  | String a rest => Ascii.eqb a ","%char || has_comma rest
  end.



(** A seven-bit character. *)
Definition ascii7 (a : ascii) : bool := N_of_ascii a <? 0x80.


Definition ascii7_string (s : string) : bool :=
  forallb ascii7 (list_ascii_of_string s).


(** A printable ASCII character that a JSON string holds as it is: neither
    the double quote nor the backslash. *)
Definition plain_char (a : ascii) : bool :=
  let n := N_of_ascii a in
  Text.between 0x20 n 0x7E && negb (n =? Json.DQUOTE)
  && negb (n =? Json.BACKSLASH).


Definition plain (s : string) : bool :=
  forallb plain_char (list_ascii_of_string s).


(** The JSON text of an object whose member names and values are strings
    written without escapes: [{"k1":"v1","k2":"v2"}]. *)
Definition member_text (k v : string) : string :=
  (dq ++ k ++ dq ++ ":" ++ dq ++ v ++ dq)%string.


Fixpoint members_text (ms : list (string * string)) : string :=
  match ms with
  | [] => EmptyString
  | [(k, v)] => member_text k v
  | (k, v) :: rest => (member_text k v ++ "," ++ members_text rest)%string
  end.


Definition object_text (ms : list (string * string)) : string :=
  ("{" ++ members_text ms ++ "}")%string.


Definition all_plain (ms : list (string * string)) : bool :=
  forallb (fun m => plain (fst m) && plain (snd m)) ms.


(** The value [JSON.parse] builds for one such member. *)
Definition member_value (m : string * string) : jsstring * Json.JSValue :=
  (lit (fst m), Json.JString (lit (snd m))).


(** The value of the last member of that name, if any. *)
Fixpoint lookup_last (key : string) (ms : list (string * string))
  : option string :=
  match ms with
  | [] => None
  | (k, v) :: rest =>
      match lookup_last key rest with
      | Some v' => Some v'
      | None => if String.eqb key k then Some v else None
      end
  end.


(** What a template literal prints for a member that is a string or is
    missing. *)
Definition shown (x : option string) : string :=
  match x with Some v => v | None => "undefined"%string end.


(** A parsed value that is not [null] and has neither a [firstName] nor a
    [lastName] member. *)
Definition lacks_names (v : Json.JSValue) : bool :=
  match v with
  | Json.JNull => false
  | Json.JObject props =>
      match Value.own_property (lit "firstName") props,
            Value.own_property (lit "lastName") props with
      | None, None => true
      | _, _ => false
      end
  | Json.JBool _ | Json.JNumber _ | Json.JString _ | Json.JArray _ => true
  end.


(** The UTF-8 byte order mark. *)
Definition BOM : list byte := [xef; xbb; xbf].


(** No bytes, or a first byte below 0x80. *)
Definition starts_ascii (bytes : list byte) : bool :=
  match bytes with
  | [] => true
  | b :: _ => Byte.to_N b <? 0x80
  end.


(** A request that already carries credentials, twice. *)
Definition request_with_credentials : Request :=
  {| method := "GET"; url := "/page";
     request_headers := [("Accept"%string, "text/html"%string);
                         ("authorization"%string, "Bearer abc"%string);
                         ("AUTHORIZATION"%string, "Basic xyz"%string)] |}.

(** A response in which Content-Type is repeated. *)
Definition repeated_content_type : CandidateResponse :=
  {| headers := [("Content-Type"%string, "application/xml"%string);
                 ("content-type"%string, "application/xml"%string)];
     ttl := 3600 |}.

(** * Properties *)

(** The example text has 36 characters, 8 of them double quotes. *)
Example ann_lee_json_shape :
  String.length ann_lee_json = 36%nat
  /\ List.length (List.filter (fun b => N.eqb (Byte.to_N b) Json.DQUOTE)
                    (Text.bytes_of ann_lee_json)) = 8%nat
  /\ Text.decode (Text.bytes_of ann_lee_json) = lit ann_lee_json.
Proof. vm_compute. repeat split. Qed.

(** ** Headers *)

Lemma strict_eq_true (x : option string) (literal : string) :
  Headers.strict_eq x literal = true <-> x = Some literal.
Proof.
  destruct x as [s|]; simpl.
  - rewrite String.eqb_eq. split; congruence.
  - split; discriminate.
Qed.

Lemma strict_eq_false (x : option string) (literal : string) :
  Headers.strict_eq x literal = false <-> x <> Some literal.
Proof.
  rewrite <- strict_eq_true. destruct (Headers.strict_eq x literal).
  - split; [discriminate | intros H; exfalso; auto].
  - split; [discriminate | reflexivity].
Qed.

Lemma values_remove (name : string) (h : Headers.t) :
  Headers.values name (Headers.remove name h) = [].
Proof.
  unfold Headers.values, Headers.remove.
  induction h as [|[n v] h IH]; simpl; [reflexivity|].
  destruct (Headers.name_eqb name n) eqn:E; simpl; [exact IH|].
  rewrite E. exact IH.
Qed.

Lemma values_set (name value : string) (h : Headers.t) :
  Headers.values name (Headers.set name value h) = [value].
Proof.
  induction h as [|[n v] h IH]; simpl.
  - unfold Headers.values; simpl.
    unfold Headers.name_eqb. rewrite String.eqb_refl. reflexivity.
  - destruct (Headers.name_eqb name n) eqn:E.
    + unfold Headers.values in *; simpl. rewrite E; simpl.
      f_equal. apply values_remove.
    + unfold Headers.values in *; simpl. rewrite E. exact IH.
Qed.

(** After [set], [get] yields exactly the value that was set. *)
Lemma get_set (name value : string) (h : Headers.t) :
  Headers.get name (Headers.set name value h) = Some value.
Proof.
  unfold Headers.get. rewrite values_set. simpl. reflexivity.
Qed.

Lemma has_iff_get (name : string) (h : Headers.t) :
  Headers.has name h = true <-> Headers.get name h <> None.
Proof.
  unfold Headers.has, Headers.get, Headers.values.
  induction h as [|[n v] h IH]; simpl.
  - split; [discriminate | congruence].
  - destruct (Headers.name_eqb name n); simpl.
    + split; [discriminate | reflexivity].
    + exact IH.
Qed.

(** ** The after-send callback in closed form *)

Section HookProperties.

Variable NumberToString : jsstring -> jsstring.

Local Abbreviation hook_result := (afterSend_result NumberToString).
Local Abbreviation hook_resp := (afterSend_resp NumberToString).

Ltac run_hook :=
  unfold afterSend_result, afterSend_resp, run_afterSend, afterSend,
    dispatched, content_type_dispatch, headers_get, headers_has, headers_set,
    set_ttl, console_log, mbind, mret, callback_bind, callback_ret;
  cbn -[Headers.get Headers.has Headers.set Headers.strict_eq bodyTransform].

Ltac split_dispatch :=
  repeat match goal with
    | |- context [Headers.strict_eq ?x ?l] =>
        destruct (Headers.strict_eq x l) eqn:?;
        cbn -[Headers.get Headers.has Headers.set Headers.strict_eq
              bodyTransform]
    | |- context [Headers.has ?n ?h] =>
        destruct (Headers.has n h) eqn:?;
        cbn -[Headers.get Headers.has Headers.set Headers.strict_eq
              bodyTransform]
    end.

Lemma hook_ttl (resp : CandidateResponse) :
  ttl (hook_resp resp) =
    let ct := Headers.get "Content-Type" (headers resp) in
    if Headers.strict_eq ct "image" then 67%Z
    else if Headers.strict_eq ct "text/html" then 321%Z
    else if Headers.strict_eq ct "application/xml" then ttl resp
    else 2%Z.
Proof. run_hook. split_dispatch; reflexivity. Qed.

Lemma hook_ttl_dispatched (resp : CandidateResponse) :
  ttl (hook_resp resp) = ttl (dispatched resp).
Proof. run_hook. split_dispatch; reflexivity. Qed.

Lemma hook_cache (resp : CandidateResponse) :
  cache (hook_result resp) =
    if Headers.has "my-private-header" (headers resp) then CacheUncacheable
    else if Headers.strict_eq
              (Headers.get "Content-Type" (headers resp)) "application/xml"
         then CacheFalse
         else CacheUndefined.
Proof.
  run_hook.
  destruct (Headers.strict_eq _ "image") eqn:Himage.
  { apply strict_eq_true in Himage. rewrite Himage.
    simpl (Headers.strict_eq (Some _) _). split_dispatch; reflexivity. }
  destruct (Headers.strict_eq _ "text/html") eqn:Hhtml.
  { apply strict_eq_true in Hhtml. rewrite Hhtml.
    simpl (Headers.strict_eq (Some _) _). split_dispatch; reflexivity. }
  split_dispatch; reflexivity.
Qed.

Lemma hook_transform (resp : CandidateResponse) :
  bodyTransformFn (hook_result resp) =
    if Headers.strict_eq
         (Headers.get "Content-Type" (headers resp)) "application/json"
    then Some (bodyTransform NumberToString)
    else None.
Proof. run_hook. split_dispatch; reflexivity. Qed.

Lemma hook_headers (resp : CandidateResponse) :
  headers (hook_resp resp) =
    if Headers.strict_eq
         (Headers.get "Content-Type" (headers resp)) "application/json"
    then Headers.set "Content-Type" "text/html" (headers resp)
    else headers resp.
Proof. run_hook. split_dispatch; reflexivity. Qed.

Lemma hook_console (resp : CandidateResponse) :
  snd (run_afterSend NumberToString resp)
  = ["in after-send callback function"%string].
Proof. run_hook. split_dispatch; reflexivity. Qed.

End HookProperties.

(** ** JSON.parse terminates within its fuel *)

Section ParserFacts.
Import Json.

Lemma skip_ws_length (s : jsstring) : (length (skip_ws s) <= length s)%nat.
Proof.
  induction s as [|c s IH]; simpl; [lia|].
  destruct (is_ws c); simpl; lia.
Qed.

Ltac bind_cases H :=
  unfold mbind, completion_bind in H;
  repeat match type of H with
    | context [match ?x with _ => _ end] =>
        let E := fresh "E" in destruct x eqn:E; try discriminate H
    end.

Lemma parse_chars_shorter (s str rest : jsstring) :
  parse_chars s = Return (str, rest) -> (length rest < length s)%nat.
Proof.
  revert str rest.
  induction s as [s IH] using (induction_ltof1 _ (@length N)).
  unfold ltof in IH. intros str rest H.
  destruct s as [|c r]; simpl in H; [discriminate|].
  bind_cases H; simplify_eq; simpl in *; try lia.
  all: match goal with
       | E : parse_chars ?x = Return (_, ?rest) |- _ =>
           apply IH in E; simpl in *; try lia
       end.
Qed.

Lemma parse_chars_fuel_free (s : jsstring) :
  parse_chars s <> Throw OutOfFuel.
Proof.
  induction s as [s IH] using (induction_ltof1 _ (@length N)).
  unfold ltof in IH. destruct s as [|c r]; simpl; [discriminate|].
  unfold mbind, completion_bind.
  repeat match goal with
    | |- context [match ?x with _ => _ end] =>
        let E := fresh "E" in destruct x eqn:E; try discriminate
    end.
  all: match goal with
       | E : parse_chars ?x = Throw ?e |- Throw ?e <> _ =>
           intros [= ->]; revert E; apply IH; simpl; lia
       end.
Qed.

Lemma span_digits_length (s : jsstring) :
  (length (snd (span_digits s)) <= length s)%nat.
Proof.
  induction s as [|c s IH]; simpl; [lia|].
  destruct (is_digit c); simpl; [|lia].
  destruct (span_digits s); simpl in *; lia.
Qed.

Lemma digits1_shorter (s ds rest : jsstring) :
  digits1 s = Return (ds, rest) -> (length rest < length s)%nat.
Proof.
  unfold digits1. destruct s as [|c s]; simpl; [discriminate|].
  pose proof (span_digits_length s) as Hlen.
  destruct (is_digit c); [|discriminate].
  destruct (span_digits s) as [ds' rest']; simpl in *.
  intros [= <- <-]. lia.
Qed.

Lemma digits1_fuel_free (s : jsstring) : digits1 s <> Throw OutOfFuel.
Proof. unfold digits1. destruct (span_digits s) as [[|] ?]; discriminate. Qed.

Ltac goal_cases :=
  unfold mbind, completion_bind;
  repeat match goal with
    | |- context [match ?x with _ => _ end] =>
        let E := fresh "E" in destruct x eqn:E; try discriminate
    end.

Ltac span_facts :=
  repeat match goal with
    | E : digits1 _ = Return _ |- _ => apply digits1_shorter in E
    | E : span_digits ?x = _ |- _ =>
        let L := fresh "L" in
        pose proof (span_digits_length x) as L; rewrite E in L; clear E
    end.

Lemma parse_int_shorter (s i rest : jsstring) :
  parse_int s = Return (i, rest) -> (length rest < length s)%nat.
Proof.
  unfold parse_int. intros H.
  bind_cases H; simplify_eq; span_facts; simpl in *; lia.
Qed.

Lemma parse_frac_shorter (s f rest : jsstring) :
  parse_frac s = Return (f, rest) -> (length rest <= length s)%nat.
Proof.
  unfold parse_frac. intros H.
  bind_cases H; simplify_eq; span_facts; simpl in *; lia.
Qed.

Lemma parse_exp_shorter (s e rest : jsstring) :
  parse_exp s = Return (e, rest) -> (length rest <= length s)%nat.
Proof.
  unfold parse_exp. intros H.
  bind_cases H; simplify_eq; span_facts; simpl in *; lia.
Qed.

Lemma parse_number_shorter (s lex rest : jsstring) :
  parse_number s = Return (lex, rest) -> (length rest < length s)%nat.
Proof.
  unfold parse_number. intros H.
  destruct (match s with
            | c :: r => if c =? ch "-" then ([c], r) else ([], s)
            | [] => ([], [])
            end) as [sign s0] eqn:Hsign.
  assert ((length s0 <= length s)%nat) as Hs0.
  { destruct s as [|c r]; [|destruct (c =? ch "-")];
      simplify_eq; simpl; lia. }
  unfold mbind, completion_bind in H.
  destruct (parse_int s0) as [[i s1]|] eqn:Hi; [|discriminate].
  destruct (parse_frac s1) as [[f s2]|] eqn:Hf; [|discriminate].
  destruct (parse_exp s2) as [[e s3]|] eqn:He; [|discriminate].
  apply parse_int_shorter in Hi. apply parse_frac_shorter in Hf.
  apply parse_exp_shorter in He. simplify_eq. lia.
Qed.

Ltac blame_callee lem :=
  match goal with
  | E : _ = Throw ?e |- Throw ?e <> Throw OutOfFuel =>
      intros [= ->]; revert E; apply lem
  end.

Lemma parse_int_fuel_free (s : jsstring) : parse_int s <> Throw OutOfFuel.
Proof. unfold parse_int. goal_cases. Qed.

Lemma parse_frac_fuel_free (s : jsstring) : parse_frac s <> Throw OutOfFuel.
Proof. unfold parse_frac. goal_cases. blame_callee digits1_fuel_free. Qed.

Lemma parse_exp_fuel_free (s : jsstring) : parse_exp s <> Throw OutOfFuel.
Proof.
  unfold parse_exp. goal_cases; blame_callee digits1_fuel_free.
Qed.

Lemma parse_number_fuel_free (s : jsstring) :
  parse_number s <> Throw OutOfFuel.
Proof.
  unfold parse_number.
  destruct (match s with
            | c :: r => if c =? ch "-" then ([c], r) else ([], s)
            | [] => ([], [])
            end) as [sign s0].
  unfold mbind, completion_bind.
  destruct (parse_int s0) as [[i s1]|] eqn:Hi;
    [|blame_callee parse_int_fuel_free].
  destruct (parse_frac s1) as [[f s2]|] eqn:Hf;
    [|blame_callee parse_frac_fuel_free].
  destruct (parse_exp s2) as [[e s3]|] eqn:He;
    [discriminate|blame_callee parse_exp_fuel_free].
Qed.

Lemma keyword_shorter (word : string) (v v' : JSValue) (s rest : jsstring) :
  keyword word v s = Return (v', rest) -> (length rest <= length s)%nat.
Proof.
  unfold keyword. generalize (lit word) as p. intros p.
  destruct (strip_prefix p s) as [rest'|] eqn:E; [|discriminate].
  intros [= _ <-]. revert s E.
  induction p as [|x p IH]; intros [|y s]; simpl; intros E;
    try discriminate E.
  - injection E as <-. simpl. lia.
  - injection E as <-. simpl. lia.
  - destruct (x =? y); [|discriminate]. apply IH in E. lia.
Qed.

Lemma keyword_fuel_free (word : string) (v : JSValue) (s : jsstring) :
  keyword word v s <> Throw OutOfFuel.
Proof. unfold keyword. destruct (strip_prefix _ _); discriminate. Qed.

Ltac len_facts IHv IHe IHm :=
  repeat match goal with
    | E : skip_ws ?x = _ |- _ =>
        let L := fresh "L" in
        pose proof (skip_ws_length x) as L; rewrite E in L; clear E
    | E : parse_chars _ = Return _ |- _ => apply parse_chars_shorter in E
    | E : parse_number _ = Return _ |- _ => apply parse_number_shorter in E
    | E : keyword _ _ _ = Return _ |- _ => apply keyword_shorter in E
    | E : parse_value _ _ = Return _ |- _ => apply IHv in E
    | E : parse_elements _ _ = Return _ |- _ => apply IHe in E
    | E : parse_members _ _ = Return _ |- _ => apply IHm in E
    end;
  cbn [length] in *.

Lemma parse_shorter (fuel : nat) :
  (forall s v rest,
      parse_value fuel s = Return (v, rest) -> (length rest < length s)%nat)
  /\ (forall s vs rest,
      parse_elements fuel s = Return (vs, rest) ->
      (length rest < length s)%nat)
  /\ (forall s ms rest,
      parse_members fuel s = Return (ms, rest) ->
      (length rest < length s)%nat).
Proof.
  induction fuel as [|fuel (IHv & IHe & IHm)].
  - repeat split; intros; discriminate.
  - repeat split; intros s v rest H; simpl in H;
      bind_cases H; simplify_eq; len_facts IHv IHe IHm; lia.
Qed.

Lemma parse_value_shorter fuel s v rest :
  parse_value fuel s = Return (v, rest) -> (length rest < length s)%nat.
Proof. apply parse_shorter. Qed.

Lemma parse_elements_shorter fuel s vs rest :
  parse_elements fuel s = Return (vs, rest) -> (length rest < length s)%nat.
Proof. apply parse_shorter. Qed.

Lemma parse_members_shorter fuel s ms rest :
  parse_members fuel s = Return (ms, rest) -> (length rest < length s)%nat.
Proof. apply parse_shorter. Qed.

Ltac fuel_facts :=
  len_facts parse_value_shorter parse_elements_shorter parse_members_shorter.

Lemma parse_fuel_enough (fuel : nat) :
  (forall s, (2 * length s + 1 <= fuel)%nat ->
             parse_value fuel s <> Throw OutOfFuel)
  /\ (forall s, (2 * length s + 2 <= fuel)%nat ->
                parse_elements fuel s <> Throw OutOfFuel)
  /\ (forall s, (2 * length s + 2 <= fuel)%nat ->
                parse_members fuel s <> Throw OutOfFuel).
Proof.
  induction fuel as [|fuel (IHv & IHe & IHm)].
  - repeat split; intros; lia.
  - repeat split; intros s Hfuel; simpl; goal_cases.
    all: try apply keyword_fuel_free.
    all: match goal with
         | E : ?call = Throw ?e |- Throw ?e <> Throw OutOfFuel =>
             intros [= ->]; revert E;
             first [ apply parse_chars_fuel_free
                   | apply parse_number_fuel_free
                   | apply keyword_fuel_free
                   | apply IHv; fuel_facts; lia
                   | apply IHe; fuel_facts; lia
                   | apply IHm; fuel_facts; lia ]
         end.
Qed.

(** [JSON.parse] never runs out of fuel. *)
Lemma parse_fuel_free (s : jsstring) : parse s <> Throw OutOfFuel.
Proof.
  unfold parse, mbind, completion_bind.
  destruct (parse_value _ s) as [[v rest]|e] eqn:E.
  - destruct (skip_ws rest); discriminate.
  - intros [= ->]. revert E. apply parse_fuel_enough. lia.
Qed.

End ParserFacts.

(** ** The body transform never runs out of fuel *)

Section TransformFacts.

Variable NumberToString : jsstring -> jsstring.

Lemma to_string_fuel_free (v : Json.JSValue) :
  Value.to_string NumberToString v <> Throw OutOfFuel.
Proof.
  induction v as [|[|]| | |elems IH|props _] using Json.JSValue_nested_ind;
    simpl; try discriminate.
  - unfold mbind, completion_bind.
    match goal with
    | |- match ?each elems with _ => _ end <> _ =>
        assert (each elems <> Throw OutOfFuel) as Hall;
        [|destruct (each elems); [discriminate|congruence]]
    end.
    induction IH as [|x rest Hx _ IHrest]; [discriminate|].
    destruct x; simpl in *;
      repeat match goal with
        | |- context [match ?m with _ => _ end] =>
            destruct m eqn:?; try discriminate; try congruence
        end.
  - destruct (Value.own_property _ props); discriminate.
Qed.

Lemma bodyTransform_fuel_free (bytes : list byte) :
  bodyTransform NumberToString bytes <> Throw OutOfFuel.
Proof.
  unfold bodyTransform, mbind, completion_bind.
  destruct (Json.parse _) as [json|e] eqn:Hparse.
  2: { intros [= ->]. revert Hparse. apply parse_fuel_free. }
  assert (forall x, Value.template_string NumberToString x
                    <> Throw OutOfFuel) as Htpl.
  { intros [v|]; simpl; [apply to_string_fuel_free | discriminate]. }
  destruct json; simpl; try discriminate;
    repeat match goal with
      | |- context [match Value.template_string ?n ?x with _ => _ end] =>
          let E := fresh "E" in
          destruct (Value.template_string n x) eqn:E;
          [|intros [= ->]; revert E; apply Htpl]
      end; discriminate.
Qed.

(** A body that [JSON.parse] rejects makes the transform throw. *)
Lemma bodyTransform_unparsable (bytes : list byte) (e : js_error) :
  Json.parse (Text.decode bytes) = Throw e ->
  bodyTransform NumberToString bytes = Throw e.
Proof.
  intros H. unfold bodyTransform, mbind, completion_bind. rewrite H.
  reflexivity.
Qed.

End TransformFacts.

(** ** The cache driven by this program's callbacks *)

Section Claims.

Variable NumberToString : jsstring -> jsstring.

Local Abbreviation hook_result := (afterSend_result NumberToString).
Local Abbreviation hook_resp := (afterSend_resp NumberToString).
Local Abbreviation engine := (readthrough (cacheOverride NumberToString)).

Lemma afterSend_run (resp : CandidateResponse) :
  afterSend NumberToString (resp, [])
  = (hook_result resp,
     (hook_resp resp, ["in after-send callback function"%string])).
Proof.
  pose proof (hook_console NumberToString resp) as Hout.
  unfold afterSend_result, afterSend_resp, run_afterSend in *.
  destruct (afterSend NumberToString (resp, [])) as [r [c out]].
  simpl in *. congruence.
Qed.

Lemma engine_unfold (key : string) (o : OriginResponse)
    (st : gmap string Slot) :
  engine key o st =
    let '(st', act, resp, evs) :=
      if not_modified o
      then revalidate key (hook_resp (candidate o)) o st
      else persist_fresh key (hook_result (candidate o))
             (hook_resp (candidate o)) o st in
    {| store_after := st'; action := act; client := resp;
       events := HookLogged "in after-send callback function" :: evs |}.
Proof.
  unfold readthrough, cacheOverride. cbn [co_afterSend].
  rewrite afterSend_run. reflexivity.
Qed.

Lemma lookup_entry_store (key : string) (h : Headers.t) (lifetime : Z)
    (body : list byte) (collapsible : bool) (st : gmap string Slot) :
  lookup_entry key (store_entry key h lifetime body collapsible st)
  = Some {| entry_headers := h; entry_lifetime := lifetime;
            entry_body := body; entry_collapsible := collapsible |}.
Proof. unfold lookup_entry, store_entry. by rewrite lookup_insert_eq. Qed.

Lemma lookup_entry_update (key : string) (h : Headers.t) (lifetime : Z)
    (st : gmap string Slot) (e : CachedEntry) :
  lookup_entry key st = Some e ->
  lookup_entry key (updateMetadata key h lifetime st)
  = Some {| entry_headers := h; entry_lifetime := lifetime;
            entry_body := entry_body e;
            entry_collapsible := entry_collapsible e |}.
Proof.
  intros He. unfold updateMetadata. rewrite He.
  unfold lookup_entry. by rewrite lookup_insert_eq.
Qed.

Lemma updateMetadata_other (key k : string) (h : Headers.t) (lifetime : Z)
    (st : gmap string Slot) :
  k <> key -> updateMetadata key h lifetime st !! k = st !! k.
Proof.
  intros Hne. unfold updateMetadata.
  destruct (lookup_entry key st); [|reflexivity].
  by rewrite lookup_insert_ne.
Qed.

(** The request that reaches the origin carries the injected header. *)
Lemma dispatch_sets_authorization (req : Request) :
  Headers.get "Authorization"
    (request_headers (dispatch (cacheOverride NumberToString) req))
  = Some "Foo"%string
  /\ method (dispatch (cacheOverride NumberToString) req) = method req
  /\ url (dispatch (cacheOverride NumberToString) req) = url req.
Proof.
  unfold dispatch, cacheOverride, beforeSend. cbn -[Headers.get Headers.set].
  split; [apply get_set | split; reflexivity].
Qed.

(** C1. For a not-modified (304) response to a key that has a cached entry,
    the body transform is never invoked, the entry keeps its body (and its
    collapsible flag) while its headers and lifetime become those of the
    candidate response as the after-send callback left it, and no other key
    of the store changes. *)
Theorem revalidation_preserves_body (key : string) (o : OriginResponse)
    (st : gmap string Slot) (e : CachedEntry) :
  status o = 304%Z ->
  lookup_entry key st = Some e ->
  (forall input, ~ In (TransformInvoked input) (events (engine key o st)))
  /\ lookup_entry key (store_after (engine key o st))
     = Some {| entry_headers := headers (hook_resp (candidate o));
               entry_lifetime := ttl (hook_resp (candidate o));
               entry_body := entry_body e;
               entry_collapsible := entry_collapsible e |}
  /\ (forall k, k <> key -> store_after (engine key o st) !! k = st !! k)
  /\ action (engine key o st) = MetadataUpdated.
Proof.
  intros H304 He. rewrite engine_unfold.
  unfold not_modified. rewrite H304. cbn [Z.eqb Pos.eqb].
  unfold revalidate. cbn [store_after events action].
  repeat split.
  - intros input [Hin|[]]. discriminate Hin.
  - by apply lookup_entry_update.
  - intros k Hne. by apply updateMetadata_other.
Qed.

(** C2 (amended). The lifetime after the callback is 67 for Content-Type
    [image], 321 for [text/html] and 2 for every other value, a missing
    header included, except [application/xml], for which the callback
    assigns nothing and the lifetime stays what it was. *)
Theorem lifetime_follows_content_type (resp : CandidateResponse) :
  (Headers.get "Content-Type" (headers resp) = Some "image"%string ->
   ttl (hook_resp resp) = 67%Z)
  /\ (Headers.get "Content-Type" (headers resp) = Some "text/html"%string ->
      ttl (hook_resp resp) = 321%Z)
  /\ (Headers.get "Content-Type" (headers resp)
        = Some "application/xml"%string ->
      ttl (hook_resp resp) = ttl resp)
  /\ (Headers.get "Content-Type" (headers resp) <> Some "image"%string ->
      Headers.get "Content-Type" (headers resp) <> Some "text/html"%string ->
      Headers.get "Content-Type" (headers resp)
        <> Some "application/xml"%string ->
      ttl (hook_resp resp) = 2%Z).
Proof.
  rewrite hook_ttl. cbv zeta.
  repeat split.
  - intros ->. reflexivity.
  - intros ->. reflexivity.
  - intros ->. reflexivity.
  - intros H1 H2 H3.
    apply strict_eq_false in H1, H2, H3. by rewrite H1, H2, H3.
Qed.

(** C3 (amended). For Content-Type [application/xml] without the private
    marker header the callback returns [cache: false] and leaves the
    lifetime alone, whatever it is; the cache then skips a fresh response:
    the store is unchanged and the transform is not run. *)
Theorem xml_is_skipped (key : string) (o : OriginResponse)
    (st : gmap string Slot) :
  Headers.get "Content-Type" (origin_headers o)
    = Some "application/xml"%string ->
  Headers.has "my-private-header" (origin_headers o) = false ->
  cache (hook_result (candidate o)) = CacheFalse
  /\ ttl (hook_resp (candidate o)) = origin_lifetime o
  /\ (not_modified o = false ->
      action (engine key o st) = Skipped
      /\ store_after (engine key o st) = st
      /\ forall input,
          ~ In (TransformInvoked input) (events (engine key o st))).
Proof.
  intros Hxml Hprivate.
  assert (cache (hook_result (candidate o)) = CacheFalse) as Hcache.
  { rewrite hook_cache. cbn [candidate headers].
    by rewrite Hprivate, Hxml. }
  split; [exact Hcache|]. split.
  { rewrite hook_ttl. cbn [candidate headers ttl]. by rewrite Hxml. }
  intros Hfresh. rewrite engine_unfold, Hfresh.
  unfold persist_fresh. rewrite Hcache. cbn.
  repeat split. intros input [Hin|[]]. discriminate Hin.
Qed.

(** C4. With the private marker header present the callback returns
    [cache: 'uncacheable'] (hit-for-pass), whatever the switch on the
    Content-Type decided, and the lifetime is the one that switch
    assigned. *)
Theorem private_marker_forces_hit_for_pass (resp : CandidateResponse) :
  Headers.has "my-private-header" (headers resp) = true ->
  cache (hook_result resp) = CacheUncacheable
  /\ decision_of (cache (hook_result resp)) = HitForPass
  /\ ttl (hook_resp resp) = ttl (dispatched resp).
Proof.
  intros Hprivate.
  assert (cache (hook_result resp) = CacheUncacheable) as Hcache.
  { rewrite hook_cache. by rewrite Hprivate. }
  rewrite Hcache. repeat split. apply hook_ttl_dispatched.
Qed.

(** C5. The callback returns a body transform exactly when it rewrites
    Content-Type from [application/json] to [text/html], and returns none
    exactly when it leaves the headers as they were. *)
Theorem transform_iff_content_type_rewrite (resp : CandidateResponse) :
  (bodyTransformFn (hook_result resp) <> None <->
   Headers.get "Content-Type" (headers resp)
     = Some "application/json"%string
   /\ Headers.get "Content-Type" (headers (hook_resp resp))
      = Some "text/html"%string
   /\ headers (hook_resp resp)
      = Headers.set "Content-Type" "text/html" (headers resp))
  /\ (bodyTransformFn (hook_result resp) = None <->
      headers (hook_resp resp) = headers resp).
Proof.
  rewrite hook_transform, hook_headers.
  destruct (Headers.strict_eq _ "application/json") eqn:Hjson.
  - apply strict_eq_true in Hjson. split; split.
    + intros _. rewrite get_set. auto.
    + discriminate.
    + discriminate.
    + intros Hsame. rewrite <- Hsame, get_set in Hjson. discriminate.
  - apply strict_eq_false in Hjson. split; split.
    + congruence.
    + intros [Habs _]. contradiction.
    + reflexivity.
    + reflexivity.
Qed.

(** C6. For a response with Content-Type [application/json] the callback
    declares a transform that maps the bytes of
    [{"firstName":"Ann","lastName":"Lee"}] to the bytes of
    [<div>Ann Lee</div>], and the Content-Type of the response becomes
    [text/html]. *)
Theorem ann_lee_is_rendered (resp : CandidateResponse) :
  Headers.get "Content-Type" (headers resp)
    = Some "application/json"%string ->
  (exists transform,
      bodyTransformFn (hook_result resp) = Some transform
      /\ transform (Text.bytes_of ann_lee_json)
         = Return (Text.bytes_of "<div>Ann Lee</div>"))
  /\ Headers.get "Content-Type" (headers (hook_resp resp))
     = Some "text/html"%string.
Proof.
  intros Hjson. apply strict_eq_true in Hjson.
  rewrite hook_transform, hook_headers, Hjson. split.
  - eexists. split; [reflexivity|]. vm_compute. reflexivity.
  - apply get_set.
Qed.

(** C7. For a response whose Content-Type is not [application/xml] and that
    has no private marker header the callback returns [cache] undefined,
    which the cache reads as store and which differs from [false] (skip) and
    ['uncacheable'] (hit-for-pass); a fresh response whose transform, if
    any, does not throw is then stored with the lifetime and the headers the
    callback left. *)
Theorem undefined_cache_means_store (key : string) (o : OriginResponse)
    (st : gmap string Slot) :
  Headers.get "Content-Type" (origin_headers o)
    <> Some "application/xml"%string ->
  Headers.has "my-private-header" (origin_headers o) = false ->
  cache (hook_result (candidate o)) = CacheUndefined
  /\ decision_of (cache (hook_result (candidate o))) = Store
  /\ CacheUndefined <> CacheFalse
  /\ CacheUndefined <> CacheUncacheable
  /\ decision_of CacheUndefined <> decision_of CacheFalse
  /\ decision_of CacheUndefined <> decision_of CacheUncacheable
  /\ (not_modified o = false ->
      (forall transform,
          bodyTransformFn (hook_result (candidate o)) = Some transform ->
          throws (transform (origin_body o)) = false) ->
      action (engine key o st) = Stored
      /\ exists e,
          lookup_entry key (store_after (engine key o st)) = Some e
          /\ entry_lifetime e = ttl (hook_resp (candidate o))
          /\ entry_headers e = headers (hook_resp (candidate o))).
Proof.
  intros Hxml Hprivate. apply strict_eq_false in Hxml.
  assert (cache (hook_result (candidate o)) = CacheUndefined) as Hcache.
  { rewrite hook_cache. cbn [candidate headers].
    by rewrite Hprivate, Hxml. }
  rewrite Hcache.
  do 6 (split; [reflexivity || discriminate|]).
  intros Hfresh Hok. rewrite engine_unfold, Hfresh.
  unfold persist_fresh. rewrite Hcache. cbn [decision_of].
  destruct (bodyTransformFn (hook_result (candidate o)))
    as [transform|] eqn:Htransform.
  - specialize (Hok transform eq_refl).
    destruct (transform (origin_body o)); [|discriminate Hok].
    cbn [action store_after]. split; [reflexivity|].
    eexists. split; [apply lookup_entry_store|]. split; reflexivity.
  - cbn [action store_after]. split; [reflexivity|].
    eexists. split; [apply lookup_entry_store|]. split; reflexivity.
Qed.

(** C8. When the transform the callback declared throws on the body of a
    fresh response that was to be stored, the cache falls back to skip: the
    store is unchanged, the failure is logged, and the caller receives the
    status and the body the origin sent. *)
Theorem transform_failure_fails_closed (key : string) (o : OriginResponse)
    (st : gmap string Slot)
    (transform : list byte -> completion (list byte)) :
  not_modified o = false ->
  decision_of (cache (hook_result (candidate o))) = Store ->
  bodyTransformFn (hook_result (candidate o)) = Some transform ->
  throws (transform (origin_body o)) = true ->
  action (engine key o st) = Skipped
  /\ store_after (engine key o st) = st
  /\ client (engine key o st)
     = {| client_status := status o; client_body := origin_body o |}
  /\ exists e, In (TransformFailureLogged e) (events (engine key o st)).
Proof.
  intros Hfresh Hstore Hdeclared Hthrows.
  rewrite engine_unfold, Hfresh. unfold persist_fresh.
  rewrite Hstore, Hdeclared.
  destruct (transform (origin_body o)) as [b|e]; [discriminate Hthrows|].
  cbn. repeat split. exists e. auto.
Qed.

(** C9. For Content-Type [application/json] without the private marker
    header the lifetime after the callback is the default 2, not the 321 of
    [text/html], although the Content-Type the callback leaves is
    [text/html]; the decision is not set. *)
Theorem json_gets_default_lifetime (resp : CandidateResponse) :
  Headers.get "Content-Type" (headers resp)
    = Some "application/json"%string ->
  Headers.has "my-private-header" (headers resp) = false ->
  ttl (hook_resp resp) = 2%Z
  /\ ttl (hook_resp resp) <> 321%Z
  /\ Headers.get "Content-Type" (headers (hook_resp resp))
     = Some "text/html"%string
  /\ cache (hook_result resp) = CacheUndefined.
Proof.
  intros Hjson Hprivate.
  rewrite hook_ttl, hook_headers, hook_cache, Hprivate, Hjson.
  cbn. rewrite get_set. repeat split. discriminate.
Qed.

(** C10. For Content-Type [application/json] with the private marker header
    the callback returns hit-for-pass and still declares the transform and
    rewrites Content-Type to [text/html]. *)
Theorem private_json_still_transformed (resp : CandidateResponse) :
  Headers.get "Content-Type" (headers resp)
    = Some "application/json"%string ->
  Headers.has "my-private-header" (headers resp) = true ->
  cache (hook_result resp) = CacheUncacheable
  /\ bodyTransformFn (hook_result resp)
     = Some (bodyTransform NumberToString)
  /\ headers (hook_resp resp)
     = Headers.set "Content-Type" "text/html" (headers resp)
  /\ Headers.get "Content-Type" (headers (hook_resp resp))
     = Some "text/html"%string.
Proof.
  intros Hjson Hprivate.
  rewrite hook_cache, hook_transform, hook_headers, Hprivate, Hjson.
  cbn. rewrite get_set. repeat split.
Qed.

End Claims.

(** ** The claims at concrete responses *)

(** C2 as stated fails: a response of Content-Type [application/xml] that
    arrives with lifetime 3600 leaves the callback with lifetime 3600, not
    with the default 2. *)
Lemma xml_lifetime_is_not_default :
  ~ (forall resp : CandidateResponse,
        (Headers.get "Content-Type" (headers resp) = Some "image"%string ->
         ttl (afterSend_resp number_text resp) = 67%Z)
        /\ (Headers.get "Content-Type" (headers resp)
              = Some "text/html"%string ->
            ttl (afterSend_resp number_text resp) = 321%Z)
        /\ (Headers.get "Content-Type" (headers resp)
              <> Some "image"%string ->
            Headers.get "Content-Type" (headers resp)
              <> Some "text/html"%string ->
            ttl (afterSend_resp number_text resp) = 2%Z)).
Proof.
  intros H.
  destruct (H (response_of "application/xml" 3600)) as (_ & _ & Hdefault).
  assert (ttl (afterSend_resp number_text
                 (response_of "application/xml" 3600)) = 2%Z) as Habs.
  { apply Hdefault; vm_compute; discriminate. }
  vm_compute in Habs. discriminate Habs.
Qed.

Lemma lifetime_follows_content_type_witness :
  ttl (afterSend_resp number_text (response_of "image" 3600)) = 67%Z
  /\ ttl (afterSend_resp number_text (response_of "text/html" 3600)) = 321%Z
  /\ ttl (afterSend_resp number_text (response_of "application/xml" 3600))
     = 3600%Z
  /\ ttl (afterSend_resp number_text (response_of "text/plain" 3600)) = 2%Z.
Proof.
  split; [|split; [|split]].
  - apply (lifetime_follows_content_type number_text
             (response_of "image" 3600)).
    reflexivity.
  - apply (lifetime_follows_content_type number_text
             (response_of "text/html" 3600)).
    reflexivity.
  - apply (lifetime_follows_content_type number_text
             (response_of "application/xml" 3600)).
    reflexivity.
  - apply (lifetime_follows_content_type number_text
             (response_of "text/plain" 3600));
      vm_compute; discriminate.
Defined.

(** C3 as stated fails: with the private marker header present, a response
    of Content-Type [application/xml] gets ['uncacheable'], not [false]. *)
Lemma xml_with_private_marker_is_not_skipped :
  ~ (forall resp : CandidateResponse,
        Headers.get "Content-Type" (headers resp)
          = Some "application/xml"%string ->
        cache (afterSend_result number_text resp) = CacheFalse).
Proof.
  intros H.
  specialize (H (private_response_of "application/xml" 3600) eq_refl).
  vm_compute in H. discriminate H.
Qed.

Lemma revalidation_preserves_body_witness :
  status (origin_of 304 "text/html" 60 EmptyString) = 304%Z
  /\ lookup_entry "GET /page" one_page_store = Some cached_page
  /\ lookup_entry "GET /page"
       (store_after
          (readthrough (cacheOverride number_text) "GET /page"
             (origin_of 304 "text/html" 60 EmptyString) one_page_store))
     = Some {| entry_headers := [("Content-Type"%string, "text/html"%string)];
               entry_lifetime := 321;
               entry_body := Text.bytes_of "<p>cached</p>";
               entry_collapsible := true |}.
Proof.
  assert (lookup_entry "GET /page" one_page_store = Some cached_page)
    as Hcached by (vm_compute; reflexivity).
  split; [reflexivity|]. split; [exact Hcached|].
  destruct (revalidation_preserves_body number_text "GET /page"
              (origin_of 304 "text/html" 60 EmptyString) one_page_store
              cached_page eq_refl Hcached) as (_ & Hentry & _).
  rewrite Hentry. reflexivity.
Defined.

Lemma xml_is_skipped_witness :
  Headers.get "Content-Type"
    (origin_headers (origin_of 200 "application/xml" 3600 "<a/>"))
  = Some "application/xml"%string
  /\ cache (afterSend_result number_text
              (candidate (origin_of 200 "application/xml" 3600 "<a/>")))
     = CacheFalse
  /\ store_after
       (readthrough (cacheOverride number_text) "GET /feed"
          (origin_of 200 "application/xml" 3600 "<a/>") one_page_store)
     = one_page_store.
Proof.
  split; [reflexivity|].
  destruct (xml_is_skipped number_text "GET /feed"
              (origin_of 200 "application/xml" 3600 "<a/>") one_page_store
              eq_refl eq_refl) as (Hcache & _ & Hfresh).
  split; [exact Hcache|]. apply Hfresh. reflexivity.
Defined.

Lemma private_marker_forces_hit_for_pass_witness :
  Headers.has "my-private-header"
    (headers (private_response_of "text/html" 3600)) = true
  /\ cache (afterSend_result number_text
              (private_response_of "text/html" 3600)) = CacheUncacheable
  /\ ttl (afterSend_resp number_text
            (private_response_of "text/html" 3600)) = 321%Z.
Proof.
  split; [reflexivity|].
  destruct (private_marker_forces_hit_for_pass number_text
              (private_response_of "text/html" 3600) eq_refl)
    as (Hcache & _ & Httl).
  split; [exact Hcache|]. rewrite Httl. reflexivity.
Defined.

Lemma ann_lee_is_rendered_witness :
  Headers.get "Content-Type"
    (headers (response_of "application/json" 3600))
  = Some "application/json"%string
  /\ bodyTransform number_text (Text.bytes_of ann_lee_json)
     = Return (Text.bytes_of "<div>Ann Lee</div>")
  /\ Headers.get "Content-Type"
       (headers (afterSend_resp number_text
                   (response_of "application/json" 3600)))
     = Some "text/html"%string.
Proof.
  split; [reflexivity|].
  destruct (ann_lee_is_rendered number_text
              (response_of "application/json" 3600) eq_refl)
    as ((transform & Hdeclared & Hbytes) & Htype).
  split; [|exact Htype].
  rewrite hook_transform in Hdeclared.
  injection Hdeclared as <-. exact Hbytes.
Defined.

Lemma undefined_cache_means_store_witness :
  Headers.has "my-private-header"
    (origin_headers (origin_of 200 "text/html" 3600 "<p>new</p>")) = false
  /\ cache (afterSend_result number_text
              (candidate (origin_of 200 "text/html" 3600 "<p>new</p>")))
     = CacheUndefined
  /\ action (readthrough (cacheOverride number_text) "GET /page"
               (origin_of 200 "text/html" 3600 "<p>new</p>") one_page_store)
     = Stored.
Proof.
  split; [reflexivity|].
  destruct (undefined_cache_means_store number_text "GET /page"
              (origin_of 200 "text/html" 3600 "<p>new</p>") one_page_store)
    as (Hcache & _ & _ & _ & _ & _ & Hstore).
  - vm_compute. discriminate.
  - reflexivity.
  - split; [exact Hcache|]. apply Hstore; [reflexivity|].
    intros transform Htransform. rewrite hook_transform in Htransform.
    discriminate Htransform.
Defined.

Lemma transform_failure_fails_closed_witness :
  throws (bodyTransform number_text
            (origin_body (origin_of 200 "application/json" 3600 "not json")))
  = true
  /\ store_after
       (readthrough (cacheOverride number_text) "GET /page"
          (origin_of 200 "application/json" 3600 "not json") one_page_store)
     = one_page_store
  /\ client
       (readthrough (cacheOverride number_text) "GET /page"
          (origin_of 200 "application/json" 3600 "not json") one_page_store)
     = {| client_status := 200; client_body := Text.bytes_of "not json" |}.
Proof.
  assert (throws (bodyTransform number_text
                    (origin_body
                       (origin_of 200 "application/json" 3600 "not json")))
          = true) as Hthrows by (vm_compute; reflexivity).
  split; [exact Hthrows|].
  destruct (transform_failure_fails_closed number_text "GET /page"
              (origin_of 200 "application/json" 3600 "not json")
              one_page_store (bodyTransform number_text)
              eq_refl eq_refl eq_refl Hthrows)
    as (_ & Hstore & Hclient & _).
  split; [exact Hstore | exact Hclient].
Defined.

Lemma json_gets_default_lifetime_witness :
  Headers.get "Content-Type"
    (headers (response_of "application/json" 3600))
  = Some "application/json"%string
  /\ Headers.has "my-private-header"
       (headers (response_of "application/json" 3600)) = false
  /\ ttl (afterSend_resp number_text (response_of "application/json" 3600))
     = 2%Z.
Proof.
  split; [reflexivity|]. split; [reflexivity|].
  apply (json_gets_default_lifetime number_text
           (response_of "application/json" 3600) eq_refl eq_refl).
Defined.

Lemma private_json_still_transformed_witness :
  Headers.get "Content-Type"
    (headers (private_response_of "application/json" 3600))
  = Some "application/json"%string
  /\ Headers.has "my-private-header"
       (headers (private_response_of "application/json" 3600)) = true
  /\ cache (afterSend_result number_text
              (private_response_of "application/json" 3600))
     = CacheUncacheable
  /\ bodyTransformFn (afterSend_result number_text
                        (private_response_of "application/json" 3600))
     = Some (bodyTransform number_text).
Proof.
  split; [reflexivity|]. split; [reflexivity|].
  destruct (private_json_still_transformed number_text
              (private_response_of "application/json" 3600)
              eq_refl eq_refl) as (Hcache & Htransform & _).
  split; [exact Hcache | exact Htransform].
Defined.

(** * Further properties of the callbacks *)

(** ** Headers, continued *)

Lemma name_eqb_lower (a b : string) :
  Headers.name_eqb a b = true
  <-> Headers.lower_string a = Headers.lower_string b.
Proof. unfold Headers.name_eqb. apply String.eqb_eq. Qed.

Lemma name_eqb_trans_false (n name n0 : string) :
  Headers.name_eqb n name = false ->
  Headers.name_eqb name n0 = true ->
  Headers.name_eqb n n0 = false.
Proof.
  intros Hne Heq. apply name_eqb_lower in Heq.
  unfold Headers.name_eqb in *. by rewrite <- Heq.
Qed.

Lemma name_eqb_trans_true (n name n0 : string) :
  Headers.name_eqb n name = true ->
  Headers.name_eqb name n0 = Headers.name_eqb n n0.
Proof.
  intros Heq. apply name_eqb_lower in Heq.
  unfold Headers.name_eqb in *. by rewrite Heq.
Qed.

Lemma values_remove_other (n name : string) (h : Headers.t) :
  Headers.name_eqb n name = false ->
  Headers.values n (Headers.remove name h) = Headers.values n h.
Proof.
  intros Hne. unfold Headers.values, Headers.remove.
  induction h as [|[n0 v0] h IH]; simpl; [reflexivity|].
  destruct (Headers.name_eqb name n0) eqn:E; simpl.
  - rewrite (name_eqb_trans_false _ _ _ Hne E). exact IH.
  - destruct (Headers.name_eqb n n0); simpl; by rewrite IH.
Qed.

(** [set] leaves the values of every other name as they were. *)
Lemma values_set_other (n name value : string) (h : Headers.t) :
  Headers.name_eqb n name = false ->
  Headers.values n (Headers.set name value h) = Headers.values n h.
Proof.
  intros Hne. induction h as [|[n0 v0] h IH]; simpl.
  - unfold Headers.values; simpl. by rewrite Hne.
  - destruct (Headers.name_eqb name n0) eqn:E.
    + pose proof (values_remove_other n name h Hne) as Hrest.
      unfold Headers.values in *; simpl.
      rewrite (name_eqb_trans_false _ _ _ Hne E). exact Hrest.
    + unfold Headers.values in *; simpl.
      destruct (Headers.name_eqb n n0); simpl; by rewrite IH.
Qed.

Lemma has_values (name : string) (h : Headers.t) :
  Headers.has name h = negb (match Headers.values name h with
                             | [] => true | _ => false end).
Proof.
  unfold Headers.has, Headers.values.
  induction h as [|[n v] h IH]; simpl; [reflexivity|].
  destruct (Headers.name_eqb name n); simpl; [reflexivity | exact IH].
Qed.

Lemma has_name_eqb (n name : string) (h : Headers.t) :
  Headers.name_eqb n name = true -> Headers.has n h = Headers.has name h.
Proof.
  intros Heq. unfold Headers.has.
  induction h as [|[n0 v0] h IH]; simpl; [reflexivity|].
  by rewrite IH, (name_eqb_trans_true _ _ _ Heq).
Qed.

Lemma remove_remove (name : string) (h : Headers.t) :
  Headers.remove name (Headers.remove name h) = Headers.remove name h.
Proof.
  unfold Headers.remove.
  induction h as [|[n v] h IH]; simpl; [reflexivity|].
  destruct (Headers.name_eqb name n) eqn:E; simpl; [exact IH|].
  by rewrite E, IH.
Qed.

(** Setting the same header twice is setting it once. *)
Lemma set_set (name value : string) (h : Headers.t) :
  Headers.set name value (Headers.set name value h)
  = Headers.set name value h.
Proof.
  induction h as [|[n v] h IH]; simpl.
  - unfold Headers.name_eqb. by rewrite String.eqb_refl.
  - destruct (Headers.name_eqb name n) eqn:E; simpl; rewrite E.
    + by rewrite remove_remove.
    + by rewrite IH.
Qed.

Lemma has_comma_app (a b : string) :
  has_comma (a ++ b) = has_comma a || has_comma b.
Proof.
  induction a as [|c a IH]; simpl; [reflexivity|].
  by rewrite IH, orb_assoc.
Qed.

Lemma has_comma_concat (v1 v2 : string) (vs : list string) :
  has_comma (String.concat ", " (v1 :: v2 :: vs)) = true.
Proof.
  simpl. rewrite has_comma_app. simpl. apply orb_true_r.
Qed.

Lemma strict_eq_comma (s literal : string) :
  has_comma s = true -> has_comma literal = false ->
  Headers.strict_eq (Some s) literal = false.
Proof.
  intros Hs Hl. apply strict_eq_false. intros [= ->]. congruence.
Qed.

Section HookExtras.

Variable NumberToString : jsstring -> jsstring.

Local Abbreviation hook_result := (afterSend_result NumberToString).
Local Abbreviation hook_resp := (afterSend_resp NumberToString).

Lemma hook_left_not_json (resp : CandidateResponse) :
  Headers.strict_eq
    (Headers.get "Content-Type" (headers (hook_resp resp)))
    "application/json" = false.
Proof.
  rewrite hook_headers.
  destruct (Headers.strict_eq (Headers.get "Content-Type" (headers resp))
              "application/json") eqn:Hjson; [|exact Hjson].
  by rewrite get_set.
Qed.

Lemma hook_has_private (resp : CandidateResponse) :
  Headers.has "my-private-header" (headers (hook_resp resp))
  = Headers.has "my-private-header" (headers resp).
Proof.
  rewrite hook_headers.
  destruct (Headers.strict_eq _ _); [|reflexivity].
  rewrite !has_values. by rewrite values_set_other.
Qed.

(** X1. The callback changes no header but Content-Type: for every other
    name the values, and so the result of [get], are what they were. *)
Theorem afterSend_keeps_other_headers (resp : CandidateResponse)
    (name : string) :
  Headers.name_eqb name "Content-Type" = false ->
  Headers.values name (headers (hook_resp resp))
  = Headers.values name (headers resp)
  /\ Headers.get name (headers (hook_resp resp))
     = Headers.get name (headers resp).
Proof.
  intros Hother.
  assert (Headers.values name (headers (hook_resp resp))
          = Headers.values name (headers resp)) as Hvalues.
  { rewrite hook_headers.
    destruct (Headers.strict_eq _ _); [|reflexivity].
    by apply values_set_other. }
  split; [exact Hvalues|]. unfold Headers.get. by rewrite Hvalues.
Qed.

(** X2. The callback neither adds nor removes a header name. *)
Theorem afterSend_keeps_header_names (resp : CandidateResponse)
    (name : string) :
  Headers.has name (headers (hook_resp resp))
  = Headers.has name (headers resp).
Proof.
  rewrite hook_headers.
  destruct (Headers.strict_eq _ _) eqn:Hjson; [|reflexivity].
  apply strict_eq_true in Hjson.
  destruct (Headers.name_eqb name "Content-Type") eqn:Hname.
  - rewrite !(has_name_eqb _ _ _ Hname).
    assert (Headers.has "Content-Type" (headers resp) = true) as ->.
    { apply has_iff_get. by rewrite Hjson. }
    apply has_iff_get. by rewrite get_set.
  - rewrite !has_values. by rewrite values_set_other.
Qed.

(** X3. The response the callback leaves never has Content-Type
    [application/json]. *)
Theorem afterSend_never_leaves_json (resp : CandidateResponse) :
  Headers.get "Content-Type" (headers (hook_resp resp))
  <> Some "application/json"%string.
Proof. apply strict_eq_false, hook_left_not_json. Qed.

(** X4. The three decisions, exactly: ['uncacheable'] when the private
    marker is present; [false] when it is absent and Content-Type is
    [application/xml]; undefined otherwise. *)
Theorem afterSend_decision_cases (resp : CandidateResponse) :
  (cache (hook_result resp) = CacheUncacheable
   <-> Headers.has "my-private-header" (headers resp) = true)
  /\ (cache (hook_result resp) = CacheFalse
      <-> Headers.has "my-private-header" (headers resp) = false
          /\ Headers.get "Content-Type" (headers resp)
             = Some "application/xml"%string)
  /\ (cache (hook_result resp) = CacheUndefined
      <-> Headers.has "my-private-header" (headers resp) = false
          /\ Headers.get "Content-Type" (headers resp)
             <> Some "application/xml"%string).
Proof.
  rewrite hook_cache.
  destruct (Headers.has _ _); [intuition congruence|].
  destruct (Headers.strict_eq _ _) eqn:Hxml.
  - apply strict_eq_true in Hxml. intuition congruence.
  - apply strict_eq_false in Hxml. intuition congruence.
Qed.

(** X5. When the response carries Content-Type more than once, [get]
    returns the values joined by a comma, which matches no case: the
    lifetime is the default 2, no transform is declared, the headers are
    untouched and the decision is never [false], whatever the values. *)
Theorem repeated_content_type_gets_default (resp : CandidateResponse)
    (v1 v2 : string) (vs : list string) :
  Headers.values "Content-Type" (headers resp) = v1 :: v2 :: vs ->
  ttl (hook_resp resp) = 2%Z
  /\ bodyTransformFn (hook_result resp) = None
  /\ headers (hook_resp resp) = headers resp
  /\ cache (hook_result resp) <> CacheFalse.
Proof.
  intros Hvalues.
  assert (forall literal, has_comma literal = false ->
            Headers.strict_eq
              (Headers.get "Content-Type" (headers resp)) literal = false)
    as Hnone.
  { intros literal Hl. unfold Headers.get. rewrite Hvalues.
    apply strict_eq_comma; [apply has_comma_concat | exact Hl]. }
  rewrite hook_ttl, hook_transform, hook_headers, hook_cache. cbv zeta.
  rewrite !Hnone by reflexivity.
  repeat split. destruct (Headers.has _ _); discriminate.
Qed.

(** X6. Running the callback again on the response it left: the headers
    and the decision do not change and no transform is declared; the
    lifetime does not change either, unless Content-Type was
    [application/json], where the second run sees [text/html] and turns the
    lifetime from 2 into 321. *)
Theorem afterSend_again (resp : CandidateResponse) :
  headers (hook_resp (hook_resp resp)) = headers (hook_resp resp)
  /\ cache (hook_result (hook_resp resp)) = cache (hook_result resp)
  /\ bodyTransformFn (hook_result (hook_resp resp)) = None
  /\ (Headers.get "Content-Type" (headers resp)
        <> Some "application/json"%string ->
      ttl (hook_resp (hook_resp resp)) = ttl (hook_resp resp))
  /\ (Headers.get "Content-Type" (headers resp)
        = Some "application/json"%string ->
      ttl (hook_resp resp) = 2%Z
      /\ ttl (hook_resp (hook_resp resp)) = 321%Z).
Proof.
  pose proof (hook_left_not_json resp) as Hleft.
  assert (bodyTransformFn (hook_result (hook_resp resp)) = None) as Hnone.
  { by rewrite hook_transform, Hleft. }
  split; [by rewrite (hook_headers _ (hook_resp resp)), Hleft|].
  split.
  { rewrite !hook_cache, hook_has_private.
    destruct (Headers.has _ _); [reflexivity|].
    rewrite (hook_headers _ resp).
    destruct (Headers.strict_eq
                (Headers.get "Content-Type" (headers resp))
                "application/json") eqn:Hjson; [|reflexivity].
    apply strict_eq_true in Hjson. by rewrite get_set, Hjson. }
  split; [exact Hnone|]. split.
  - intros Hnot. apply strict_eq_false in Hnot.
    rewrite (hook_ttl _ (hook_resp resp)). cbv zeta.
    rewrite (hook_headers _ resp), Hnot.
    rewrite (hook_ttl _ resp). cbv zeta.
    destruct (Headers.strict_eq _ "image"); [reflexivity|].
    destruct (Headers.strict_eq _ "text/html"); [reflexivity|].
    destruct (Headers.strict_eq _ "application/xml"); reflexivity.
  - intros Hjson. split.
    + by rewrite hook_ttl, Hjson.
    + rewrite (hook_ttl _ (hook_resp resp)). cbv zeta.
      apply strict_eq_true in Hjson.
      by rewrite (hook_headers _ resp), Hjson, get_set.
Qed.

(** X7. The private marker is recognised whatever the letter case of its
    name. *)
Theorem private_marker_in_any_case (resp : CandidateResponse)
    (name value : string) :
  In (name, value) (headers resp) ->
  Headers.lower_string name = "my-private-header"%string ->
  cache (hook_result resp) = CacheUncacheable.
Proof.
  intros Hin Hlower. rewrite hook_cache.
  assert (Headers.has "my-private-header" (headers resp) = true) as ->;
    [|reflexivity].
  unfold Headers.has. apply existsb_exists. exists (name, value).
  split; [exact Hin|]. apply name_eqb_lower.
  cbn [fst]. rewrite Hlower. reflexivity.
Qed.

End HookExtras.

(** ** The before-send callback *)

Lemma beforeSend_run (req : Request) (out : list string) :
  beforeSend (req, out)
  = (tt, ({| method := method req; url := url req;
             request_headers :=
               Headers.set "Authorization" "Foo" (request_headers req) |},
          out ++ ["in before-send callback function"%string])).
Proof. reflexivity. Qed.

(** X8. After [beforeSend] the request carries exactly one Authorization
    header, with value [Foo], whatever Authorization headers it had. *)
Theorem beforeSend_replaces_authorization (req : Request) :
  Headers.values "Authorization" (request_headers (sent_request req))
  = ["Foo"%string]
  /\ Headers.get "Authorization" (request_headers (sent_request req))
     = Some "Foo"%string.
Proof.
  unfold sent_request. rewrite beforeSend_run. cbn [fst snd request_headers].
  split; [apply values_set | apply get_set].
Qed.

(** X9. [beforeSend] changes nothing else: the values of every other
    header name, the method and the URL are what they were. *)
Theorem beforeSend_keeps_the_rest (req : Request) (name : string) :
  Headers.name_eqb name "Authorization" = false ->
  Headers.values name (request_headers (sent_request req))
  = Headers.values name (request_headers req)
  /\ method (sent_request req) = method req
  /\ url (sent_request req) = url req.
Proof.
  intros Hother. unfold sent_request. rewrite beforeSend_run.
  cbn [fst snd request_headers method url].
  split; [by apply values_set_other | split; reflexivity].
Qed.

(** X10. Running [beforeSend] twice leaves the same request as running it
    once. *)
Theorem beforeSend_twice (req : Request) :
  sent_request (sent_request req) = sent_request req.
Proof.
  unfold sent_request. rewrite !beforeSend_run.
  cbn [fst snd request_headers method url]. by rewrite set_set.
Qed.

(** ** The transform on ASCII texts *)

Lemma to_N_byte_of_ascii (a : ascii) :
  Byte.to_N (byte_of_ascii a) = N_of_ascii a.
Proof. destruct a as [[] [] [] [] [] [] [] []]; reflexivity. Qed.

Lemma byte_of_N_of_ascii (a : ascii) :
  Text.byte_of_N (N_of_ascii a) = byte_of_ascii a.
Proof. destruct a as [[] [] [] [] [] [] [] []]; reflexivity. Qed.

Lemma lit_cons (a : ascii) (s : string) :
  lit (String a s) = N_of_ascii a :: lit s.
Proof. reflexivity. Qed.

Lemma lit_app (a b : string) : lit (a ++ b) = lit a ++ lit b.
Proof.
  unfold lit. induction a as [|c a IH]; [reflexivity|].
  simpl. f_equal. exact IH.
Qed.

Lemma decode_from_ascii (l : list ascii) :
  forallb ascii7 l = true ->
  Text.decode_from Text.Idle (map Byte.to_N (map byte_of_ascii l))
  = map N_of_ascii l.
Proof.
  induction l as [|a l IH]; [reflexivity|].
  cbn [forallb map]. intros [Ha Hl]%andb_prop.
  cbn [Text.decode_from]. rewrite to_N_byte_of_ascii.
  unfold ascii7 in Ha. apply N.ltb_lt in Ha.
  unfold Text.lead.
  destruct (N.leb_spec (N_of_ascii a) 0x7F) as [_|Hbig]; [|lia].
  cbn [app]. by rewrite IH.
Qed.

Lemma utf16_ascii (l : list ascii) :
  forallb ascii7 l = true ->
  flat_map Text.utf16_of_cp (map N_of_ascii l) = map N_of_ascii l.
Proof.
  induction l as [|a l IH]; [reflexivity|].
  cbn [forallb map flat_map]. intros [Ha Hl]%andb_prop.
  unfold ascii7 in Ha. apply N.ltb_lt in Ha.
  unfold Text.utf16_of_cp at 1.
  destruct (N.ltb_spec (N_of_ascii a) 0x10000) as [_|Hbig]; [|lia].
  cbn [app]. by rewrite IH.
Qed.

(** Decoding ASCII bytes yields the same characters. *)
Lemma decode_ascii (s : string) :
  forallb ascii7 (list_ascii_of_string s) = true ->
  Text.decode (Text.bytes_of s) = lit s.
Proof.
  intros Hs. unfold Text.decode, Text.bytes_of, lit.
  rewrite decode_from_ascii by exact Hs.
  replace (Text.strip_bom (map N_of_ascii (list_ascii_of_string s)))
    with (map N_of_ascii (list_ascii_of_string s)).
  - by apply utf16_ascii.
  - destruct (list_ascii_of_string s) as [|a l]; [reflexivity|].
    cbn [forallb] in Hs. apply andb_prop in Hs as [Ha _].
    unfold ascii7 in Ha. apply N.ltb_lt in Ha. cbn [map Text.strip_bom].
    destruct (N.eqb_spec (N_of_ascii a) 0xFEFF) as [Heq|_]; [lia|].
    reflexivity.
Qed.

Lemma scalars_ascii (l : list ascii) :
  forallb ascii7 l = true ->
  Text.scalars (map N_of_ascii l) = map N_of_ascii l.
Proof.
  induction l as [|a l IH]; [reflexivity|].
  cbn [forallb map]. intros [Ha Hl]%andb_prop.
  unfold ascii7 in Ha. apply N.ltb_lt in Ha.
  cbn [Text.scalars]. unfold Text.is_high, Text.is_low, Text.between.
  destruct (N.leb_spec 0xD800 (N_of_ascii a)) as [Hbig|_]; [lia|].
  destruct (N.leb_spec 0xDC00 (N_of_ascii a)) as [Hbig|_]; [lia|].
  cbn [andb]. by rewrite IH.
Qed.

(** Encoding ASCII characters yields the same bytes. *)
Lemma encode_ascii (s : string) :
  forallb ascii7 (list_ascii_of_string s) = true ->
  Text.encode (lit s) = Text.bytes_of s.
Proof.
  intros Hs. unfold Text.encode, Text.bytes_of, lit.
  rewrite scalars_ascii by exact Hs.
  induction (list_ascii_of_string s) as [|a l IH]; [reflexivity|].
  cbn [forallb] in Hs. apply andb_prop in Hs as [Ha Hl].
  cbn [map flat_map]. unfold Text.utf8_of_cp at 1.
  unfold ascii7 in Ha. rewrite Ha. cbn [app map].
  by rewrite byte_of_N_of_ascii, IH.
Qed.

Lemma plain_char_bounds (a : ascii) :
  plain_char a = true ->
  0x20 <= N_of_ascii a /\ N_of_ascii a <= 0x7E
  /\ N_of_ascii a <> Json.DQUOTE /\ N_of_ascii a <> Json.BACKSLASH.
Proof.
  unfold plain_char, Text.between. cbv zeta.
  intros [[[H1 H2]%andb_prop H3]%andb_prop H4]%andb_prop.
  apply N.leb_le in H1, H2.
  apply negb_true_iff, N.eqb_neq in H3, H4. auto.
Qed.

Lemma plain_ascii7 (l : list ascii) :
  forallb plain_char l = true -> forallb ascii7 l = true.
Proof.
  induction l as [|a l IH]; [reflexivity|]. cbn [forallb].
  intros [Ha Hl]%andb_prop. apply plain_char_bounds in Ha as (_ & Ha & _).
  rewrite IH by exact Hl. unfold ascii7.
  destruct (N.ltb_spec (N_of_ascii a) 0x80); [reflexivity | lia].
Qed.

Lemma plain_cons (a : ascii) (s : string) :
  plain (String a s) = plain_char a && plain s.
Proof. reflexivity. Qed.

(** A string of plain characters is read up to its closing quote. *)
Lemma parse_chars_plain (s : string) (rest : jsstring) :
  plain s = true ->
  Json.parse_chars (lit s ++ Json.DQUOTE :: rest) = Return (lit s, rest).
Proof.
  induction s as [|a s IH].
  - intros _. reflexivity.
  - rewrite plain_cons. intros [Ha Hs]%andb_prop.
    apply plain_char_bounds in Ha as (Hlo & _ & Hq & Hb).
    rewrite lit_cons. cbn [app Json.parse_chars].
    destruct (N.eqb_spec (N_of_ascii a) Json.DQUOTE); [contradiction|].
    destruct (N.eqb_spec (N_of_ascii a) Json.BACKSLASH); [contradiction|].
    destruct (N.ltb_spec (N_of_ascii a) 0x20); [lia|].
    rewrite IH by exact Hs. reflexivity.
Qed.

Lemma parse_value_plain_string (fuel : nat) (s : string) (rest : jsstring) :
  plain s = true ->
  Json.parse_value (S fuel) (Json.DQUOTE :: lit s ++ Json.DQUOTE :: rest)
  = Return (Json.JString (lit s), rest).
Proof.
  intros Hs. cbn [Json.parse_value].
  change (Json.skip_ws (Json.DQUOTE :: lit s ++ Json.DQUOTE :: rest))
    with (Json.DQUOTE :: lit s ++ Json.DQUOTE :: rest).
  change (Json.DQUOTE =? ch "{") with false.
  change (Json.DQUOTE =? ch "[") with false.
  change (Json.DQUOTE =? Json.DQUOTE) with true. cbv iota.
  rewrite parse_chars_plain by exact Hs. reflexivity.
Qed.

Lemma lit_member (k v : string) (tail : jsstring) :
  lit (member_text k v) ++ tail
  = Json.DQUOTE :: lit k ++ Json.DQUOTE :: ch ":" :: Json.DQUOTE
      :: lit v ++ Json.DQUOTE :: tail.
Proof.
  unfold member_text. rewrite !lit_app.
  change (lit dq) with [Json.DQUOTE]. change (lit ":") with [ch ":"].
  rewrite <- !app_assoc. reflexivity.
Qed.

(** One member, up to the value and the character after it. *)
Lemma parse_member_head (fuel : nat) (k v : string) (tail : jsstring) :
  plain k = true -> plain v = true ->
  Json.parse_members (S (S fuel)) (lit (member_text k v) ++ tail)
  = match Json.skip_ws tail with
    | [] => Throw SyntaxError
    | c :: r =>
        if c =? ch ","
        then '(ms, rest) ← Json.parse_members (S fuel) r;
             Return ((lit k, Json.JString (lit v)) :: ms, rest)
        else if c =? ch "}"
             then Return ([(lit k, Json.JString (lit v))], r)
             else Throw SyntaxError
    end.
Proof.
  intros Hk Hv. rewrite lit_member.
  cbn [Json.parse_members].
  change (Json.skip_ws (Json.DQUOTE :: ?x)) with (Json.DQUOTE :: x).
  change (Json.DQUOTE =? Json.DQUOTE) with true. cbv iota.
  rewrite parse_chars_plain by exact Hk.
  unfold mbind at 1, completion_bind at 1.
  change (Json.skip_ws (ch ":" :: ?x)) with (ch ":" :: x).
  change (ch ":" =? ch ":") with true. cbv iota.
  rewrite parse_value_plain_string by exact Hv.
  reflexivity.
Qed.

Lemma all_plain_cons (m : string * string) (ms : list (string * string)) :
  all_plain (m :: ms) = true ->
  plain (fst m) = true /\ plain (snd m) = true /\ all_plain ms = true.
Proof.
  unfold all_plain. cbn [forallb].
  intros [[Hk Hv]%andb_prop Hms]%andb_prop. auto.
Qed.

(** The members of a flat object of plain strings, up to the brace. *)
Lemma parse_members_plain (ms : list (string * string)) :
  ms <> [] -> all_plain ms = true ->
  forall (fuel : nat) (rest : jsstring),
    (length ms < fuel)%nat ->
    Json.parse_members fuel (lit (members_text ms) ++ ch "}" :: rest)
    = Return (map member_value ms, rest).
Proof.
  induction ms as [|[k v] ms IH]; [congruence|].
  intros _ (Hk & Hv & Hms)%all_plain_cons fuel rest Hfuel.
  cbn [fst snd] in Hk, Hv. cbn [length] in Hfuel.
  destruct fuel as [|[|fuel]]; [lia | lia |].
  destruct ms as [|m ms].
  - cbn [members_text]. rewrite parse_member_head by assumption.
    change (Json.skip_ws (ch "}" :: rest)) with (ch "}" :: rest).
    reflexivity.
  - assert (members_text ((k, v) :: m :: ms)
            = (member_text k v ++ "," ++ members_text (m :: ms))%string)
      as -> by (destruct m; reflexivity).
    rewrite !lit_app, <- !app_assoc.
    rewrite parse_member_head by assumption.
    change (lit ",") with [ch ","]. cbn [app].
    change (Json.skip_ws (ch "," :: ?x)) with (ch "," :: x).
    change (ch "," =? ch ",") with true. cbv iota.
    rewrite IH; [reflexivity | discriminate | exact Hms |].
    cbn [length] in *. lia.
Qed.

Lemma members_text_length (ms : list (string * string)) :
  (length ms <= length (lit (members_text ms)))%nat.
Proof.
  induction ms as [|[k v] [|m ms] IH].
  - cbn. lia.
  - cbn [members_text]. unfold member_text.
    rewrite !lit_app, !length_app. change (lit dq) with [Json.DQUOTE].
    cbn [length]. lia.
  - assert (members_text ((k, v) :: m :: ms)
            = (member_text k v ++ "," ++ members_text (m :: ms))%string)
      as -> by (destruct m; reflexivity).
    rewrite !lit_app, !length_app. change (lit ",") with [ch ","].
    cbn [length] in *. lia.
Qed.

Lemma members_text_starts_with_quote (ms : list (string * string)) :
  ms <> [] ->
  exists tail, lit (members_text ms) = Json.DQUOTE :: tail.
Proof.
  destruct ms as [|[k v] [|m ms]]; [congruence| |]; intros _.
  - cbn [members_text]. rewrite <- (app_nil_r (lit _)), lit_member. eauto.
  - assert (members_text ((k, v) :: m :: ms)
            = (member_text k v ++ "," ++ members_text (m :: ms))%string)
      as -> by (destruct m; reflexivity).
    rewrite lit_app, lit_member. eauto.
Qed.

(** [JSON.parse] of a flat object of plain strings. *)
Lemma parse_object_text (ms : list (string * string)) :
  all_plain ms = true ->
  Json.parse (lit (object_text ms))
  = Return (Json.JObject (map member_value ms)).
Proof.
  intros Hplain. destruct ms as [|m ms]; [reflexivity|].
  unfold Json.parse, object_text.
  set (text := lit ("{" ++ members_text (m :: ms) ++ "}")).
  replace (2 * length text + 2)%nat with (S (2 * length text + 1)) by lia.
  assert (text = ch "{" :: lit (members_text (m :: ms)) ++ [ch "}"])
    as Htext by (unfold text; rewrite !lit_app; reflexivity).
  assert (length (m :: ms) < 2 * length text + 1)%nat as Hfuel.
  { pose proof (members_text_length (m :: ms)) as Hlen.
    rewrite Htext. cbn [length] in *. rewrite length_app. lia. }
  destruct (members_text_starts_with_quote (m :: ms)) as [tail Htail];
    [discriminate|].
  generalize dependent (2 * length text + 1)%nat. intros fuel Hfuel.
  rewrite Htext. cbn [Json.parse_value].
  change (Json.skip_ws (ch "{" :: ?x)) with (ch "{" :: x).
  change (ch "{" =? ch "{") with true. cbv iota.
  rewrite Htail. cbn [app].
  change (Json.skip_ws (Json.DQUOTE :: ?x)) with (Json.DQUOTE :: x).
  change (Json.DQUOTE =? ch "}") with false. cbv iota.
  change (Json.DQUOTE :: tail ++ [ch "}"])
    with ((Json.DQUOTE :: tail) ++ [ch "}"]).
  rewrite <- Htail.
  rewrite parse_members_plain; [reflexivity | discriminate | exact Hplain |].
  exact Hfuel.
Qed.

Lemma ascii7_string_app (a b : string) :
  ascii7_string (a ++ b) = ascii7_string a && ascii7_string b.
Proof.
  unfold ascii7_string. induction a as [|c a IH]; [reflexivity|].
  simpl. by rewrite IH, andb_assoc.
Qed.

Lemma plain_ascii7_string (s : string) :
  plain s = true -> ascii7_string s = true.
Proof. apply plain_ascii7. Qed.

Lemma members_text_ascii7 (ms : list (string * string)) :
  all_plain ms = true -> ascii7_string (members_text ms) = true.
Proof.
  induction ms as [|[k v] ms IH]; [reflexivity|].
  intros (Hk & Hv & Hms)%all_plain_cons. cbn [fst snd] in Hk, Hv.
  assert (ascii7_string (member_text k v) = true) as Hmember.
  { unfold member_text. rewrite !ascii7_string_app.
    rewrite (plain_ascii7_string k Hk), (plain_ascii7_string v Hv).
    reflexivity. }
  destruct ms as [|m ms]; [exact Hmember|].
  assert (members_text ((k, v) :: m :: ms)
          = (member_text k v ++ "," ++ members_text (m :: ms))%string)
    as -> by (destruct m; reflexivity).
  rewrite !ascii7_string_app, Hmember, IH by exact Hms. reflexivity.
Qed.

Lemma N_of_ascii_eqb (a b : ascii) :
  (N_of_ascii a =? N_of_ascii b) = Ascii.eqb a b.
Proof.
  destruct (Ascii.eqb_spec a b) as [->|Hne].
  - apply N.eqb_refl.
  - apply N.eqb_neq. intros Heq. apply Hne.
    by rewrite <- (ascii_N_embedding a), Heq, ascii_N_embedding.
Qed.

Lemma jsstring_eqb_lit (a b : string) :
  jsstring_eqb (lit a) (lit b) = String.eqb a b.
Proof.
  revert b. induction a as [|c a IH]; intros [|d b]; try reflexivity.
  rewrite !lit_cons. cbn [jsstring_eqb String.eqb].
  rewrite N_of_ascii_eqb, IH. by destruct (Ascii.eqb c d).
Qed.

Lemma own_property_members (key : string) (ms : list (string * string)) :
  Value.own_property (lit key) (map member_value ms)
  = option_map (fun v => Json.JString (lit v)) (lookup_last key ms).
Proof.
  induction ms as [|[k v] ms IH]; [reflexivity|].
  cbn [map member_value fst snd Value.own_property lookup_last].
  rewrite IH. destruct (lookup_last key ms); [reflexivity|].
  cbn [option_map]. rewrite jsstring_eqb_lit.
  by destruct (String.eqb key k).
Qed.

Lemma lookup_last_plain (key : string) (ms : list (string * string)) :
  all_plain ms = true -> plain (shown (lookup_last key ms)) = true.
Proof.
  induction ms as [|[k v] ms IH]; [reflexivity|].
  intros (_ & Hv & Hms)%all_plain_cons. cbn [snd] in Hv.
  cbn [lookup_last]. specialize (IH Hms).
  destruct (lookup_last key ms); [exact IH|].
  destruct (String.eqb key k); [exact Hv | reflexivity].
Qed.

Section FlatObjects.

Variable NumberToString : jsstring -> jsstring.

Lemma transform_of_flat_object (ms : list (string * string)) :
  all_plain ms = true ->
  bodyTransform NumberToString (Text.bytes_of (object_text ms))
  = Return (Text.bytes_of
              ("<div>" ++ shown (lookup_last "firstName" ms) ++ " "
                 ++ shown (lookup_last "lastName" ms) ++ "</div>")).
Proof.
  intros Hplain. unfold bodyTransform.
  rewrite decode_ascii.
  2: { unfold object_text.
       change (ascii7_string ("{" ++ members_text ms ++ "}") = true).
       rewrite !ascii7_string_app, members_text_ascii7 by exact Hplain.
       reflexivity. }
  rewrite parse_object_text by exact Hplain.
  unfold mbind at 1, completion_bind at 1.
  cbn [Value.get]. unfold mbind, completion_bind.
  rewrite !own_property_members.
  assert (forall key,
             Value.template_string NumberToString
               (option_map (fun v => Json.JString (lit v))
                  (lookup_last key ms))
             = Return (lit (shown (lookup_last key ms)))) as Hshown.
  { intros key. destruct (lookup_last key ms); reflexivity. }
  rewrite !Hshown. f_equal.
  rewrite <- !lit_app. apply encode_ascii.
  change (ascii7_string
            ("<div>" ++ shown (lookup_last "firstName" ms) ++ " "
               ++ shown (lookup_last "lastName" ms) ++ "</div>") = true).
  rewrite !ascii7_string_app.
  rewrite (plain_ascii7_string _ (lookup_last_plain "firstName" ms Hplain)).
  rewrite (plain_ascii7_string _ (lookup_last_plain "lastName" ms Hplain)).
  reflexivity.
Qed.

End FlatObjects.

(** ** The errors of the transform *)

Section ParserErrors.
Import Json.









End ParserErrors.

Section TransformExtras.

Variable NumberToString : jsstring -> jsstring.






(** X12. For a body that parses to a number, a string, a boolean, an
    array, or an object with neither member, the transform returns
    [<div>undefined undefined</div>]. *)
Theorem missing_names_print_undefined (bytes : list byte)
    (json : Json.JSValue) :
  Json.parse (Text.decode bytes) = Return json ->
  lacks_names json = true ->
  bodyTransform NumberToString bytes
  = Return (Text.bytes_of "<div>undefined undefined</div>").
Proof.
  intros Hparse Hlacks. unfold bodyTransform, mbind, completion_bind.
  rewrite Hparse.
  destruct json; try discriminate Hlacks; simpl in *;
    try (vm_compute; reflexivity).
  destruct (Value.own_property (lit "firstName") props); [discriminate|].
  destruct (Value.own_property (lit "lastName") props); [discriminate|].
  vm_compute. reflexivity.
Qed.

(** X13. A UTF-8 byte order mark in front of a body that starts with an
    ASCII byte is dropped by the decoder: the transform gives the same
    result with and without it. *)
Theorem byte_order_mark_is_ignored (bytes : list byte) :
  starts_ascii bytes = true ->
  Text.decode (BOM ++ bytes) = Text.decode bytes
  /\ bodyTransform NumberToString (BOM ++ bytes)
     = bodyTransform NumberToString bytes.
Proof.
  intros Hascii.
  assert (Text.decode (BOM ++ bytes) = Text.decode bytes) as Hdecode.
  { unfold Text.decode, BOM. cbn [app map].
    change (Text.decode_from Text.Idle
              (Byte.to_N xef :: Byte.to_N xbb :: Byte.to_N xbf
                 :: map Byte.to_N bytes))
      with (0xFEFF :: Text.decode_from Text.Idle (map Byte.to_N bytes)).
    cbn [Text.strip_bom]. change (0xFEFF =? 0xFEFF) with true. cbv iota.
    f_equal. destruct bytes as [|b rest]; [reflexivity|].
    cbn [starts_ascii] in Hascii. apply N.ltb_lt in Hascii.
    cbn [map Text.decode_from]. unfold Text.lead.
    destruct (N.leb_spec (Byte.to_N b) 0x7F) as [_|Hbig]; [|lia].
    cbn [app Text.strip_bom].
    destruct (N.eqb_spec (Byte.to_N b) 0xFEFF) as [Heq|_]; [lia|].
    reflexivity. }
  split; [exact Hdecode|]. unfold bodyTransform. by rewrite Hdecode.
Qed.

End TransformExtras.

(** ** What the transform writes *)

Lemma scalars_cons (c : N) (rest : jsstring) :
  Text.scalars (c :: rest)
  = if Text.is_high c then
      match rest with
      | d :: rest' =>
          if Text.is_low d
          then (0x10000 + N.shiftl (c - 0xD800) 10 + (d - 0xDC00))
                 :: Text.scalars rest'
          else Text.REPLACEMENT :: Text.scalars rest
      | [] => [Text.REPLACEMENT]
      end
    else if Text.is_low c then Text.REPLACEMENT :: Text.scalars rest
    else c :: Text.scalars rest.
Proof. reflexivity. Qed.

(** Conversion to scalar values splits at a boundary that is not followed
    by a low surrogate. *)
Lemma scalars_app (s t : jsstring) :
  match t with [] => True | c :: _ => Text.is_low c = false end ->
  Text.scalars (s ++ t) = Text.scalars s ++ Text.scalars t.
Proof.
  intros Ht. induction s as [s IH] using (induction_ltof1 _ (@length N)).
  unfold ltof in IH. destruct s as [|c r]; [reflexivity|].
  change ((c :: r) ++ t) with (c :: (r ++ t)).
  rewrite (scalars_cons c (r ++ t)), (scalars_cons c r).
  destruct (Text.is_high c).
  - destruct r as [|d r'].
    + change ([] ++ t) with t.
      destruct t as [|d t']; [reflexivity|]. rewrite Ht. reflexivity.
    + change ((d :: r') ++ t) with (d :: (r' ++ t)). cbv iota.
      destruct (Text.is_low d).
      * rewrite (IH r') by (cbn [length]; lia). reflexivity.
      * change (d :: (r' ++ t)) with ((d :: r') ++ t).
        rewrite (IH (d :: r')) by (cbn [length]; lia). reflexivity.
  - destruct (Text.is_low c);
      rewrite (IH r) by (cbn [length]; lia); reflexivity.
Qed.

Lemma encode_wrapped (s : jsstring) :
  Text.encode (lit "<div>" ++ s ++ lit "</div>")
  = Text.bytes_of "<div>" ++ Text.encode s ++ Text.bytes_of "</div>".
Proof.
  unfold Text.encode.
  change (Text.scalars (lit "<div>" ++ s ++ lit "</div>"))
    with (lit "<div>" ++ Text.scalars (s ++ lit "</div>")).
  rewrite scalars_app by reflexivity.
  rewrite !flat_map_app, !map_app. reflexivity.
Qed.

Section TransformOutput.

Variable NumberToString : jsstring -> jsstring.

(** X14. For all names written in plain characters (printable ASCII but
    the double quote and the backslash), the transform maps the bytes of
    [{"firstName":"a","lastName":"b"}] to the bytes of [<div>a b</div>]:
    the names are copied as they are, markup characters included. *)
Theorem plain_names_are_copied (a b : string) :
  plain a = true -> plain b = true ->
  bodyTransform NumberToString
    (Text.bytes_of (object_text [("firstName"%string, a);
                                 ("lastName"%string, b)]))
  = Return (Text.bytes_of ("<div>" ++ a ++ " " ++ b ++ "</div>")).
Proof.
  intros Ha Hb.
  rewrite transform_of_flat_object.
  - reflexivity.
  - unfold all_plain. cbn [forallb fst snd]. rewrite Ha, Hb. reflexivity.
Qed.

(** X15. For every object whose member names and values are plain strings,
    in any number and order, the transform prints the value of the last
    member called [firstName] and of the last called [lastName], and
    [undefined] for one that is missing. *)
Theorem flat_object_uses_last_members (ms : list (string * string)) :
  all_plain ms = true ->
  bodyTransform NumberToString (Text.bytes_of (object_text ms))
  = Return (Text.bytes_of
              ("<div>" ++ shown (lookup_last "firstName" ms) ++ " "
                 ++ shown (lookup_last "lastName" ms) ++ "</div>")).
Proof. apply transform_of_flat_object. Qed.

(** X16. Whatever the transform returns begins with the bytes of [<div>]
    and ends with the bytes of [</div>]. *)
Theorem transform_result_is_wrapped (bytes out : list byte) :
  bodyTransform NumberToString bytes = Return out ->
  exists inner,
    out = Text.bytes_of "<div>" ++ inner ++ Text.bytes_of "</div>".
Proof.
  unfold bodyTransform, mbind, completion_bind.
  destruct (Json.parse _) as [json|]; [|discriminate].
  destruct (Value.get json (lit "firstName")) as [firstName|];
    [|discriminate].
  destruct (Value.get json (lit "lastName")) as [lastName|];
    [|discriminate].
  destruct (Value.template_string _ firstName) as [first|]; [|discriminate].
  destruct (Value.template_string _ lastName) as [last|]; [|discriminate].
  intros H.
  assert (Text.encode
            (lit "<div>" ++ (first ++ lit " " ++ last) ++ lit "</div>")
          = out) as <-.
  { rewrite <- !app_assoc. congruence. }
  rewrite encode_wrapped. eauto.
Qed.

End TransformOutput.

(** ** The further properties at concrete inputs *)

Example ann_lee_json_is_object_text :
  object_text [("firstName"%string, "Ann"%string);
               ("lastName"%string, "Lee"%string)] = ann_lee_json.
Proof. reflexivity. Qed.

Lemma afterSend_keeps_other_headers_witness :
  Headers.name_eqb "my-private-header" "Content-Type" = false
  /\ Headers.get "my-private-header"
       (headers (afterSend_resp number_text
                   (private_response_of "application/json" 3600)))
     = Some "1"%string.
Proof.
  split; [reflexivity|].
  destruct (afterSend_keeps_other_headers number_text
              (private_response_of "application/json" 3600)
              "my-private-header" eq_refl) as [_ Hget].
  rewrite Hget. reflexivity.
Defined.

Lemma repeated_content_type_gets_default_witness :
  Headers.values "Content-Type" (headers repeated_content_type)
  = ["application/xml"%string; "application/xml"%string]
  /\ ttl (afterSend_resp number_text repeated_content_type) = 2%Z
  /\ cache (afterSend_result number_text repeated_content_type)
     <> CacheFalse.
Proof.
  split; [reflexivity|].
  destruct (repeated_content_type_gets_default number_text
              repeated_content_type "application/xml" "application/xml" []
              eq_refl) as (Httl & _ & _ & Hcache).
  split; [exact Httl | exact Hcache].
Defined.

Lemma afterSend_again_witness :
  ttl (afterSend_resp number_text (response_of "application/json" 3600))
  = 2%Z
  /\ ttl (afterSend_resp number_text
            (afterSend_resp number_text
               (response_of "application/json" 3600))) = 321%Z.
Proof.
  destruct (afterSend_again number_text
              (response_of "application/json" 3600))
    as (_ & _ & _ & _ & Hjson).
  apply Hjson. reflexivity.
Defined.

Lemma private_marker_in_any_case_witness :
  In ("My-Private-Header"%string, "1"%string)
    (headers (private_response_of "text/html" 3600))
  /\ Headers.lower_string "My-Private-Header" = "my-private-header"%string
  /\ cache (afterSend_result number_text
              (private_response_of "text/html" 3600)) = CacheUncacheable.
Proof.
  assert (In ("My-Private-Header"%string, "1"%string)
            (headers (private_response_of "text/html" 3600))) as Hin.
  { right. left. reflexivity. }
  split; [exact Hin|]. split; [reflexivity|].
  apply (private_marker_in_any_case number_text
           (private_response_of "text/html" 3600)
           "My-Private-Header" "1" Hin eq_refl).
Defined.

Lemma beforeSend_keeps_the_rest_witness :
  Headers.name_eqb "Accept" "Authorization" = false
  /\ Headers.values "Accept"
       (request_headers (sent_request request_with_credentials))
     = ["text/html"%string]
  /\ url (sent_request request_with_credentials) = "/page"%string.
Proof.
  split; [reflexivity|].
  destruct (beforeSend_keeps_the_rest request_with_credentials "Accept"
              eq_refl) as (Hvalues & _ & Hurl).
  split; [rewrite Hvalues | rewrite Hurl]; reflexivity.
Defined.


Lemma missing_names_print_undefined_witness :
  lacks_names (Json.JArray [Json.JNumber (lit "1"); Json.JNumber (lit "2")])
  = true
  /\ bodyTransform number_text (Text.bytes_of "[1,2]")
     = Return (Text.bytes_of "<div>undefined undefined</div>").
Proof.
  split; [reflexivity|].
  apply (missing_names_print_undefined number_text (Text.bytes_of "[1,2]")
           (Json.JArray [Json.JNumber (lit "1"); Json.JNumber (lit "2")])).
  - vm_compute. reflexivity.
  - reflexivity.
Defined.

Lemma byte_order_mark_is_ignored_witness :
  starts_ascii (Text.bytes_of ann_lee_json) = true
  /\ bodyTransform number_text (BOM ++ Text.bytes_of ann_lee_json)
     = bodyTransform number_text (Text.bytes_of ann_lee_json).
Proof.
  split; [reflexivity|].
  apply (byte_order_mark_is_ignored number_text
           (Text.bytes_of ann_lee_json)).
  reflexivity.
Defined.

Lemma plain_names_are_copied_witness :
  plain "<b>Ann</b>" = true
  /\ plain "O'Neil & Co" = true
  /\ bodyTransform number_text
       (Text.bytes_of (object_text [("firstName"%string, "<b>Ann</b>"%string);
                                    ("lastName"%string, "O'Neil & Co"%string)]))
     = Return (Text.bytes_of "<div><b>Ann</b> O'Neil & Co</div>").
Proof.
  split; [reflexivity|]. split; [reflexivity|].
  apply (plain_names_are_copied number_text "<b>Ann</b>" "O'Neil & Co");
    reflexivity.
Defined.

Lemma flat_object_uses_last_members_witness :
  all_plain [("firstName"%string, "Ann"%string);
             ("age"%string, "41"%string);
             ("firstName"%string, "Bea"%string)] = true
  /\ bodyTransform number_text
       (Text.bytes_of
          (object_text [("firstName"%string, "Ann"%string);
                        ("age"%string, "41"%string);
                        ("firstName"%string, "Bea"%string)]))
     = Return (Text.bytes_of "<div>Bea undefined</div>").
Proof.
  split; [reflexivity|].
  apply (flat_object_uses_last_members number_text
           [("firstName"%string, "Ann"%string);
            ("age"%string, "41"%string);
            ("firstName"%string, "Bea"%string)]).
  reflexivity.
Defined.

Lemma transform_result_is_wrapped_witness :
  bodyTransform number_text (Text.bytes_of ann_lee_json)
  = Return (Text.bytes_of "<div>Ann Lee</div>")
  /\ exists inner,
      Text.bytes_of "<div>Ann Lee</div>"
      = Text.bytes_of "<div>" ++ inner ++ Text.bytes_of "</div>".
Proof.
  assert (bodyTransform number_text (Text.bytes_of ann_lee_json)
          = Return (Text.bytes_of "<div>Ann Lee</div>")) as Hrun
    by (vm_compute; reflexivity).
  split; [exact Hrun|].
  apply (transform_result_is_wrapped number_text
           (Text.bytes_of ann_lee_json) _ Hrun).
Defined.
